(** * btllib's FASTQ module of SeqReader

    A shallow embedding of [SeqReaderFastqModule]
    (src/btllib/include/btllib/seq_reader_fastq_module.hpp): the stage
    cursor, the scratch line, and the three reading strategies
    [read_buffer], [read_transition] and [read_file], followed by the
    properties of the specification that concern them.

    The three strategies are member templates over [ReaderType] and
    [RecordType].  The reader's line primitives are therefore taken as
    an interface (a class); the instance [SeqReader.methods] gives them
    the behaviour the specification describes. *)

From Stdlib Require Import List ZArith Lia Bool String.
From Stdlib Require Import Strings.Byte.
Import ListNotations.

Set Implicit Arguments.
Local Open Scope list_scope.

(** ** Text *)

(** [CString] (btllib/cstring.hpp) is used here through [clear] and as
    the destination of line reads only: a sequence of bytes. *)
Definition CString : Type := list byte.

Definition cstr (s : string) : CString := list_byte_of_string s.

(** The line terminator, ['\n']. *)
Definition newline : byte := x0a.

(** Text of consecutive lines, each followed by its terminator. *)
Definition unlines (ls : list CString) : list byte :=
  flat_map (fun l => l ++ [newline]) ls.

Definition is_newline (c : byte) : bool := Byte.eqb c newline.

(** A line's content holds no terminator. *)
Definition line_content (l : CString) : Prop := existsb is_newline l = false.

(** ** The stage cursor *)

Inductive Stage : Set := HEADER | SEQ | SEP | QUAL.

(** [enum class Stage] is stored as an [int]; the enumerators take the
    values 0 to 3 in the order of their declaration. *)
Definition stage_value (s : Stage) : Z :=
  match s with
  | HEADER => 0
  | SEQ => 1
  | SEP => 2
  | QUAL => 3
  end%Z.

(** What a [switch] over the four enumerators sees in a stored value:
    the matching [case] label, or none ([default]). *)
Definition stage_of_value (v : Z) : option Stage :=
  if (v =? 0)%Z then Some HEADER
  else if (v =? 1)%Z then Some SEQ
  else if (v =? 2)%Z then Some SEP
  else if (v =? 3)%Z then Some QUAL
  else None.

(** The cyclic order of the four lines of a record. *)
Definition next_stage (s : Stage) : Stage :=
  match s with
  | HEADER => SEQ
  | SEQ => SEP
  | SEP => QUAL
  | QUAL => HEADER
  end.

(** Position of a stage in the record, from 0. *)
Definition stage_index (s : Stage) : nat :=
  match s with
  | HEADER => 0
  | SEQ => 1
  | SEP => 2
  | QUAL => 3
  end.

(** ** Objects *)

(** The members of [SeqReaderFastqModule]. *)
Record SeqReaderFastqModule : Type :=
  { stage : Z;
    tmp : CString }.

(** A freshly constructed module: [stage = Stage::HEADER], [tmp] empty. *)
Definition new_module : SeqReaderFastqModule :=
  {| stage := stage_value HEADER; tmp := [] |}.

(** [reader.buffer]: loaded bytes and the window [start, end) of those
    not read yet. *)
Record Buffer : Type :=
  { data : list byte;
    start : nat;
    end_ : nat }.

(** [reader.source], a C stream: the bytes it will still deliver and
    its end-of-file and error indicators. *)
Record FILE : Type :=
  { pending : list byte;
    eof_indicator : bool;
    error_indicator : bool }.

Record Reader : Type :=
  { buffer : Buffer;
    source : FILE }.

(** The three fields of [RecordType] the module touches. *)
Record RecordType : Type :=
  { header : CString;
    seq : CString;
    qual : CString }.

Definition empty_record : RecordType :=
  {| header := []; seq := []; qual := [] |}.

(** Everything a strategy call can read or write: the module itself
    ([*this]) and its two reference arguments. *)
Record World : Type :=
  { this : SeqReaderFastqModule;
    reader : Reader;
    record : RecordType }.

Definition set_this (m : SeqReaderFastqModule) (w : World) : World :=
  {| this := m; reader := reader w; record := record w |}.

Definition set_reader (r : Reader) (w : World) : World :=
  {| this := this w; reader := r; record := record w |}.

Definition set_record (r : RecordType) (w : World) : World :=
  {| this := this w; reader := reader w; record := r |}.

Definition set_buffer (b : Buffer) (w : World) : World :=
  set_reader {| buffer := b; source := source (reader w) |} w.

Definition set_source (f : FILE) (w : World) : World :=
  set_reader {| buffer := buffer (reader w); source := f |} w.

(** The four [CString] objects a line read can be pointed at. *)
Inductive Place : Set := record_header | record_seq | record_qual | this_tmp.

Definition load (p : Place) (w : World) : CString :=
  match p with
  | record_header => header (record w)
  | record_seq => seq (record w)
  | record_qual => qual (record w)
  | this_tmp => tmp (this w)
  end.

Definition store (p : Place) (s : CString) (w : World) : World :=
  match p with
  | record_header =>
      set_record {| header := s; seq := seq (record w); qual := qual (record w) |} w
  | record_seq =>
      set_record {| header := header (record w); seq := s; qual := qual (record w) |} w
  | record_qual =>
      set_record {| header := header (record w); seq := seq (record w); qual := s |} w
  | this_tmp =>
      set_this {| stage := stage (this w); tmp := s |} w
  end.

(** ** Control *)

(** A call either returns or ends the process ([std::exit]). *)
Inductive Outcome (A : Type) : Type :=
  | Ret (a : A)
  | Exited (status : Z).

Arguments Ret {A} a.
Arguments Exited {A} status.

Definition M (A : Type) : Type := World -> Outcome A * World.

Definition ret {A : Type} (a : A) : M A := fun w => (Ret a, w).

Definition bind {A B : Type} (m : M A) (k : A -> M B) : M B :=
  fun w =>
    match m w with
    | (Ret a, w') => k a w'
    | (Exited c, w') => (Exited c, w')
    end.

Notation "x <- m ;; k" := (bind m (fun x => k))
  (at level 61, m at next level, right associativity).
Notation "m ;; k" := (bind m (fun _ => k))
  (at level 61, right associativity).

Definition get_stage : M Z := fun w => (Ret (stage (this w)), w).

(** [stage = Stage::s;] *)
Definition set_stage (s : Stage) : M unit :=
  fun w => (Ret tt, set_this {| stage := stage_value s; tmp := tmp (this w) |} w).

(** [p.clear();] *)
Definition clear (p : Place) : M unit :=
  fun w => (Ret tt, store p [] w).

Definition get_buffer : M Buffer := fun w => (Ret (buffer (reader w)), w).

(** [<cstdlib>] *)
Definition EXIT_FAILURE : Z := 1.

Definition std_exit {A : Type} (status : Z) : M A :=
  fun w => (Exited status, w).

(** [log_error] (btllib/status.hpp) writes its message to the error
    stream of the process, which is no part of [World]. *)
Definition log_error (message : string) : M unit := ret tt.

(** ** [<cstdio>] on [reader.source] *)

Definition EOF : Z := (-1)%Z.

Definition std_ferror : M Z :=
  fun w => (Ret (if error_indicator (source (reader w)) then 1 else 0)%Z, w).

Definition std_feof : M Z :=
  fun w => (Ret (if eof_indicator (source (reader w)) then 1 else 0)%Z, w).

(** [fgetc]: with the end-of-file indicator set, [EOF] and nothing is
    read; else the next byte as an [unsigned char] converted to [int];
    with no byte left, [EOF], and the end-of-file indicator is set. *)
Definition fgetc (f : FILE) : Z * FILE :=
  if eof_indicator f then (EOF, f)
  else
    match pending f with
    | [] =>
        (EOF, {| pending := []; eof_indicator := true;
                 error_indicator := error_indicator f |})
    | c :: rest =>
        (Z.of_N (Byte.to_N c),
         {| pending := rest; eof_indicator := false;
            error_indicator := error_indicator f |})
    end.

(** [ungetc]: pushes [c], converted to [unsigned char], back in front
    of the stream and clears the end-of-file indicator; [EOF] is not
    pushed. *)
Definition ungetc (c : Z) (f : FILE) : FILE :=
  if (c =? EOF)%Z then f
  else
    match Byte.of_N (Z.to_N (c mod 256)) with
    | Some b =>
        {| pending := b :: pending f; eof_indicator := false;
           error_indicator := error_indicator f |}
    | None => f
    end.

Definition std_fgetc : M Z :=
  fun w => let '(c, f) := fgetc (source (reader w)) in (Ret c, set_source f w).

Definition std_ungetc (c : Z) : M unit :=
  fun w => (Ret tt, set_source (ungetc c (source (reader w))) w).

(** ** The reader's interface *)

(** What the module asks of its [ReaderType] argument besides the
    members [buffer] and [source]: three line reads and the end test
    of [read_file]. *)
Class ReaderType : Type :=
  { readline_buffer_append : CString -> Buffer -> bool * CString * Buffer;
    readline_file_append : CString -> FILE -> CString * FILE;
    readline_file : CString -> FILE -> CString * FILE;
    file_at_end : FILE -> bool }.

Section Strategies.

Context {R : ReaderType}.

(** [reader.readline_buffer_append(p)] *)
Definition call_readline_buffer_append (p : Place) : M bool :=
  fun w =>
    let '(ok, s, b) := readline_buffer_append (load p w) (buffer (reader w)) in
    (Ret ok, store p s (set_buffer b w)).

(** [reader.readline_file_append(p, reader.source)] *)
Definition call_readline_file_append (p : Place) : M unit :=
  fun w =>
    let '(s, f) := readline_file_append (load p w) (source (reader w)) in
    (Ret tt, store p s (set_source f w)).

(** [reader.readline_file(p, reader.source)] *)
Definition call_readline_file (p : Place) : M unit :=
  fun w =>
    let '(s, f) := readline_file (load p w) (source (reader w)) in
    (Ret tt, store p s (set_source f w)).

(** [reader.file_at_end(reader.source)] *)
Definition call_file_at_end : M bool :=
  fun w => (Ret (file_at_end (source (reader w))), w).

(** *** [read_buffer]

    The [switch] falls through its cases, so each label is the entry
    of a block that ends in the next one. *)

Definition buffer_case_QUAL : M bool :=
  ok <- call_readline_buffer_append record_qual ;;
  if negb ok then ret false
  else
    set_stage HEADER ;;
    ret true.

Definition buffer_case_SEP : M bool :=
  ok <- call_readline_buffer_append this_tmp ;;
  if negb ok then ret false
  else
    set_stage QUAL ;;
    clear this_tmp ;;
    buffer_case_QUAL.

Definition buffer_case_SEQ : M bool :=
  ok <- call_readline_buffer_append record_seq ;;
  if negb ok then ret false
  else
    set_stage SEP ;;
    buffer_case_SEP.

Definition buffer_case_HEADER : M bool :=
  ok <- call_readline_buffer_append record_header ;;
  if negb ok then ret false
  else
    set_stage SEQ ;;
    buffer_case_SEQ.

Definition invalid_state {A : Type} : M A :=
  log_error "SeqReader has entered an invalid state." ;;
  std_exit EXIT_FAILURE.

Definition buffer_switch : M bool :=
  v <- get_stage ;;
  match stage_of_value v with
  | Some HEADER => buffer_case_HEADER
  | Some SEQ => buffer_case_SEQ
  | Some SEP => buffer_case_SEP
  | Some QUAL => buffer_case_QUAL
  | None => invalid_state
  end.

Definition read_buffer : M bool :=
  clear record_header ;;
  clear record_seq ;;
  clear record_qual ;;
  b <- get_buffer ;;
  if start b <? end_ b then buffer_switch
  else ret false.

(** *** [read_transition] *)

Definition transition_case_QUAL : M bool :=
  call_readline_file_append record_qual ;;
  set_stage HEADER ;;
  ret true.

Definition transition_case_SEP : M bool :=
  call_readline_file_append this_tmp ;;
  set_stage QUAL ;;
  clear this_tmp ;;
  transition_case_QUAL.

Definition transition_case_SEQ : M bool :=
  call_readline_file_append record_seq ;;
  set_stage SEP ;;
  transition_case_SEP.

Definition transition_case_HEADER : M bool :=
  call_readline_file_append record_header ;;
  set_stage SEQ ;;
  transition_case_SEQ.

Definition transition_switch : M bool :=
  v <- get_stage ;;
  match stage_of_value v with
  | Some HEADER => transition_case_HEADER
  | Some SEQ => transition_case_SEQ
  | Some SEP => transition_case_SEP
  | Some QUAL => transition_case_QUAL
  | None => invalid_state
  end.

Definition read_transition : M bool :=
  e <- std_ferror ;;
  usable <- (if (e =? 0)%Z then f <- std_feof ;; ret (f =? 0)%Z else ret false) ;;
  if usable then
    p <- std_fgetc ;;
    if negb (p =? EOF)%Z then
      std_ungetc p ;;
      transition_switch
    else ret false
  else ret false.

(** *** [read_file] *)

Definition read_file : M bool :=
  at_end <- call_file_at_end ;;
  if negb at_end then
    call_readline_file record_header ;;
    call_readline_file record_seq ;;
    call_readline_file this_tmp ;;
    call_readline_file record_qual ;;
    ret true
  else ret false.

End Strategies.

(** ** The reader of the specification *)

Module SeqReader.

(** The first line of [l] and what follows its terminator, when [l]
    holds a terminator. *)
Fixpoint split_line (l : list byte) : option (CString * list byte) :=
  match l with
  | [] => None
  | c :: rest =>
      if is_newline c then Some ([], rest)
      else
        match split_line rest with
        | Some (line, after) => Some (c :: line, after)
        | None => None
        end
  end.

(** The window [start, end) of a buffer: its unread bytes. *)
Definition unread (b : Buffer) : list byte :=
  firstn (end_ b - start b) (skipn (start b) (data b)).

(** Modelled from the spec: the buffer-capable line read of the reader
    (SeqReader, not under src/).  It copies the bytes up to and
    excluding the next line terminator into the destination, advances
    the window's cursor past the terminator and returns true; it
    returns false and performs no mutation if no terminator exists
    before the window's end. *)
Definition readline_buffer_append (dest : CString) (b : Buffer)
  : bool * CString * Buffer :=
  match split_line (unread b) with
  | Some (line, _) =>
      (true, dest ++ line,
       {| data := data b; start := start b + List.length line + 1; end_ := end_ b |})
  | None => (false, dest, b)
  end.

(** Modelled from the spec: the stream line read of the reader
    (SeqReader, not under src/), in the variant that appends.  It
    always attempts to copy a full line after the destination's
    content and consumes the line with its terminator; when the stream
    runs out before a terminator, the bytes that were left are copied
    and the stream is at its end. *)
Definition readline_file_append (dest : CString) (f : FILE) : CString * FILE :=
  match split_line (pending f) with
  | Some (line, after) =>
      (dest ++ line,
       {| pending := after; eof_indicator := eof_indicator f;
          error_indicator := error_indicator f |})
  | None =>
      (dest ++ pending f,
       {| pending := []; eof_indicator := true;
          error_indicator := error_indicator f |})
  end.

(** Modelled from the spec: the stream line read of the reader
    (SeqReader, not under src/), in the variant used by [read_file]:
    the line read becomes the destination's content. *)
Definition readline_file (dest : CString) (f : FILE) : CString * FILE :=
  readline_file_append [] f.

(** Modelled from the spec: the end test of the reader (SeqReader, not
    under src/): the stream is at its end when it has no byte left to
    deliver. *)
Definition file_at_end (f : FILE) : bool :=
  match pending f with
  | [] => true
  | _ :: _ => false
  end.

Definition methods : ReaderType :=
  Build_ReaderType readline_buffer_append readline_file_append
    readline_file file_at_end.

End SeqReader.

(** ** The state machine of the specification *)

(** The field that receives the line of a stage; the separator line
    goes to the scratch line. *)
Definition stage_place (s : Stage) : Place :=
  match s with
  | HEADER => record_header
  | SEQ => record_seq
  | SEP => this_tmp
  | QUAL => record_qual
  end.

(** What follows a line read with success at stage [s]: the cursor
    moves one step in the cyclic order, and the separator line is
    dropped. *)
Definition line_done (s : Stage) (w : World) : World :=
  let w1 := set_this {| stage := stage_value (next_stage s); tmp := tmp (this w) |} w in
  match s with
  | SEP => store this_tmp [] w1
  | _ => w1
  end.

Section Machine.

Context {R : ReaderType}.

(** One step of the buffered strategy: the line of stage [s] is read
    with success from the buffer. *)
Definition buffer_line (s : Stage) (w w' : World) : Prop :=
  exists w1,
    call_readline_buffer_append (stage_place s) w = (Ret true, w1) /\
    w' = line_done s w1.

(** One step of the boundary-transition strategy: the stream line read
    is called for stage [s].  The call returns nothing to test, so the
    step is taken whatever the stream delivered. *)
Definition file_call (s : Stage) (w w' : World) : Prop :=
  exists w1,
    call_readline_file_append (stage_place s) w = (Ret tt, w1) /\
    w' = line_done s w1.

(** [n] steps in a row, the first at stage [s]. *)
Inductive lines_read (step : Stage -> World -> World -> Prop)
  : nat -> Stage -> World -> World -> Prop :=
  | lines_read_O : forall s w, lines_read step 0 s w w
  | lines_read_S : forall n s w w1 w2,
      step s w w1 ->
      lines_read step n (next_stage s) w1 w2 ->
      lines_read step (S n) s w w2.

(** The block of [read_buffer]'s [switch] that a case label enters. *)
Definition buffer_case (s : Stage) : M bool :=
  match s with
  | HEADER => buffer_case_HEADER
  | SEQ => buffer_case_SEQ
  | SEP => buffer_case_SEP
  | QUAL => buffer_case_QUAL
  end.

(** The block of [read_transition]'s [switch] that a case label
    enters. *)
Definition transition_case (s : Stage) : M bool :=
  match s with
  | HEADER => transition_case_HEADER
  | SEQ => transition_case_SEQ
  | SEP => transition_case_SEP
  | QUAL => transition_case_QUAL
  end.

(** The four direct reads of the specification's Direct Strategy, in
    their fixed order. *)
Definition direct_read (w : World) (p : Place) : World :=
  snd (call_readline_file p w).

Definition direct_reads (w : World) : World :=
  fold_left direct_read [record_header; record_seq; this_tmp; record_qual] w.

End Machine.

(** ** Inputs of the specification's examples *)

Definition exhausted_stream : FILE :=
  {| pending := []; eof_indicator := false; error_indicator := false |}.

Definition stream_of (bytes : list byte) : FILE :=
  {| pending := bytes; eof_indicator := false; error_indicator := false |}.

Definition no_buffer : Buffer := {| data := []; start := 0; end_ := 0 |}.

Definition buffer_of (bytes : list byte) : Buffer :=
  {| data := bytes; start := 0; end_ := List.length bytes |}.

(** Example 1: the buffer holds ["@r1\nACGT\n+\n!!!!\n"]. *)
Definition example_1 : World :=
  {| this := new_module;
     reader :=
       {| buffer := buffer_of (unlines [cstr "@r1"; cstr "ACGT"; cstr "+"; cstr "!!!!"]);
          source := exhausted_stream |};
     record := empty_record |}.

(** The same record split after its header line: ["@r1\n"] in the
    buffer, ["ACGT\n+\n!!!!\n"] in the stream. *)
Definition example_split : World :=
  {| this := new_module;
     reader :=
       {| buffer := buffer_of (unlines [cstr "@r1"]);
          source := stream_of (unlines [cstr "ACGT"; cstr "+"; cstr "!!!!"]) |};
     record := empty_record |}.

(** The unsplit record in the stream, for [read_file]. *)
Definition example_unsplit : World :=
  {| this := new_module;
     reader :=
       {| buffer := no_buffer;
          source := stream_of (unlines [cstr "@r1"; cstr "ACGT"; cstr "+"; cstr "!!!!"]) |};
     record := empty_record |}.

(** Example 2 after its first [read_buffer] call: the buffer
    ["@r1\nACG"] is read up to the header's terminator, the header is
    captured and the stage is [SEQ]. *)
Definition example_2_stalled : World :=
  {| this := {| stage := stage_value SEQ; tmp := [] |};
     reader :=
       {| buffer := {| data := unlines [cstr "@r1"] ++ cstr "ACG"; start := 4; end_ := 7 |};
          source := stream_of (unlines [cstr "T"; cstr "+"; cstr "!!!!"]) |};
     record := {| header := cstr "@r1"; seq := []; qual := [] |} |}.

(** A captured header and a buffer with no unread byte. *)
Definition example_drained : World :=
  {| this := {| stage := stage_value SEQ; tmp := [] |};
     reader := {| buffer := no_buffer; source := exhausted_stream |};
     record := {| header := cstr "@r1"; seq := []; qual := [] |} |}.

(** The quality line in the buffer, the stage at [QUAL], and a
    separator line left in the scratch line, as [read_file] leaves
    it. *)
Definition example_scratch_left : World :=
  {| this := {| stage := stage_value QUAL; tmp := cstr "+" |};
     reader :=
       {| buffer := buffer_of (unlines [cstr "!!!!"]);
          source := exhausted_stream |};
     record := empty_record |}.

(** A truncated input: the header was read from the buffer, the stage
    is [SEQ], and the stream ends after the sequence line. *)
Definition example_truncated : World :=
  {| this := {| stage := stage_value SEQ; tmp := [] |};
     reader :=
       {| buffer := {| data := unlines [cstr "@r1"]; start := 4; end_ := 4 |};
          source := stream_of (unlines [cstr "ACGT"]) |};
     record := {| header := cstr "@r1"; seq := []; qual := [] |} |}.

(** Example 3: the stream is at its true end and the stage is
    [HEADER]. *)
Definition example_3 : World :=
  {| this := new_module;
     reader := {| buffer := no_buffer; source := exhausted_stream |};
     record := empty_record |}.

(** Example 4: the stream holds ["@r2\nTTTT\n+\n####\n"], no buffer. *)
Definition example_4 : World :=
  {| this := new_module;
     reader :=
       {| buffer := no_buffer;
          source := stream_of (unlines [cstr "@r2"; cstr "TTTT"; cstr "+"; cstr "####"]) |};
     record := empty_record |}.

(** A stage value outside the four enumerators. *)
Definition corrupted (w : World) : World :=
  set_this {| stage := 7; tmp := tmp (this w) |} w.

(** ** Conditions on the stream and on a reader *)

(** The stream has no indicator set and a byte to deliver: what the
    tests of [read_transition] ask for together. *)
Definition stream_ready (f : FILE) : bool :=
  negb (error_indicator f) && negb (eof_indicator f) &&
  match pending f with
  | [] => false
  | _ :: _ => true
  end.

(** The same stream once a read found no byte. *)
Definition at_eof (f : FILE) : FILE :=
  {| pending := []; eof_indicator := true; error_indicator := error_indicator f |}.

(** A reader whose appending stream read keeps what its destination
    held. *)
Definition appends (R : ReaderType) : Prop :=
  forall (dest : CString) (f : FILE),
    exists line, fst (readline_file_append dest f) = dest ++ line.

(** ** Sequences of calls *)

(** The four lines of a record as they stand in a text. *)
Record FastqLines : Type :=
  { line_header : CString;
    line_seq : CString;
    line_sep : CString;
    line_qual : CString }.

Definition lines_of (r : FastqLines) : list CString :=
  [line_header r; line_seq r; line_sep r; line_qual r].

Definition record_text (r : FastqLines) : list byte := unlines (lines_of r).

Definition well_formed (r : FastqLines) : Prop :=
  line_content (line_header r) /\ line_content (line_seq r) /\
  line_content (line_sep r) /\ line_content (line_qual r).

(** What a reader is to deliver for the lines of a record. *)
Definition record_of (r : FastqLines) : RecordType :=
  {| header := line_header r; seq := line_seq r; qual := line_qual r |}.

(** Up to [n] calls of a strategy in a row on the same module, reader
    and record object; the record is copied out after each call that
    returns true, and the calls end with the first that does not. *)
Fixpoint read_records (read : M bool) (n : nat) (w : World)
  : list RecordType * World :=
  match n with
  | 0 => ([], w)
  | S n' =>
      match read w with
      | (Ret true, w') =>
          let '(rs, w'') := read_records read n' w' in (record w' :: rs, w'')
      | (_, w') => ([], w')
      end
  end.

(** The records of Examples 1 and 4. *)
Definition record_r1 : FastqLines :=
  {| line_header := cstr "@r1"; line_seq := cstr "ACGT";
     line_sep := cstr "+"; line_qual := cstr "!!!!" |}.

Definition record_r2 : FastqLines :=
  {| line_header := cstr "@r2"; line_seq := cstr "TTTT";
     line_sep := cstr "+"; line_qual := cstr "####" |}.

(** Both records in the buffer. *)
Definition example_two_buffered : World :=
  {| this := new_module;
     reader :=
       {| buffer := buffer_of (record_text record_r1 ++ record_text record_r2);
          source := exhausted_stream |};
     record := empty_record |}.

(** Both records in the stream. *)
Definition example_two_streamed : World :=
  {| this := new_module;
     reader :=
       {| buffer := no_buffer;
          source := stream_of (record_text record_r1 ++ record_text record_r2) |};
     record := empty_record |}.

(** The first record and the first two lines of the second in the
    buffer, the rest of the second in the stream. *)
Definition example_boundary : World :=
  {| this := new_module;
     reader :=
       {| buffer := buffer_of (record_text record_r1 ++
                               unlines [cstr "@r2"; cstr "TTTT"]);
          source := stream_of (unlines [cstr "+"; cstr "####"]) |};
     record := empty_record |}.

(** No unread byte in the buffer and the first record in the stream. *)
Definition example_unbuffered : World :=
  {| this := new_module;
     reader :=
       {| buffer := no_buffer;
          source := stream_of (record_text record_r1) |};
     record := empty_record |}.

(** A record object that was not cleared, at stage HEADER, and the
    second record in the stream. *)
Definition example_not_cleared : World :=
  {| this := new_module;
     reader :=
       {| buffer := no_buffer;
          source := stream_of (record_text record_r2) |};
     record := record_of record_r1 |}.

(** The cursor of [b'] is the cursor of [b] moved forward inside the
    window, over the same bytes. *)
Definition cursor_moved (b b' : Buffer) : Prop :=
  data b' = data b /\ end_ b' = end_ b /\ start b <= start b' /\
  (start b <= end_ b -> start b' <= end_ b).

(** * Properties *)

(** ** Stage values *)

Lemma stage_of_value_stage_value (s : Stage) :
  stage_of_value (stage_value s) = Some s.
Proof. destruct s; reflexivity. Qed.

Lemma stage_of_value_Some (v : Z) (s : Stage) :
  stage_of_value v = Some s -> v = stage_value s.
Proof.
  unfold stage_of_value.
  destruct (Z.eqb_spec v 0); [intros [= <-]; assumption|].
  destruct (Z.eqb_spec v 1); [intros [= <-]; assumption|].
  destruct (Z.eqb_spec v 2); [intros [= <-]; assumption|].
  destruct (Z.eqb_spec v 3); [intros [= <-]; assumption|].
  discriminate.
Qed.

Lemma stage_index_wrap (s : Stage) (n : nat) :
  stage_index s + n = 4 -> Nat.iter n next_stage s = HEADER.
Proof.
  destruct s; simpl; intros H.
  - replace n with 4 by lia. reflexivity.
  - replace n with 3 by lia. reflexivity.
  - replace n with 2 by lia. reflexivity.
  - replace n with 1 by lia. reflexivity.
Qed.

(** ** Running the strategies *)

Ltac unfold_ops :=
  unfold invalid_state, log_error, std_exit,
    call_readline_buffer_append, call_readline_file_append,
    call_readline_file, call_file_at_end,
    std_ferror, std_feof, std_fgetc, std_ungetc,
    get_stage, set_stage, get_buffer, clear, bind, ret in *;
  unfold store, load, set_buffer, set_source, set_record, set_reader,
    set_this in *;
  cbn in *.

Ltac unfold_strategies :=
  unfold read_buffer, buffer_switch, buffer_case_HEADER, buffer_case_SEQ,
    buffer_case_SEP, buffer_case_QUAL,
    read_transition, transition_switch, transition_case_HEADER,
    transition_case_SEQ, transition_case_SEP, transition_case_QUAL,
    read_file in *.

Ltac call_results :=
  cbn in *;
  repeat (match goal with
    | |- context [readline_buffer_append ?d ?b] =>
        destruct (readline_buffer_append d b) as [[[|] ?] ?] eqn:?
    | |- context [readline_file_append ?d ?f] =>
        destruct (readline_file_append d f) as [? ?] eqn:?
    | |- context [readline_file ?d ?f] =>
        destruct (readline_file d f) as [? ?] eqn:?
    end; cbn in *).

Section Frames.

Context {R : ReaderType}.

(** C10: [read_file] neither reads nor writes the stage cursor: the
    stage after a call is the stage before it, and with any other
    stage value [v] stored at entry the call returns the same result
    and leaves the same world, [v] still stored. *)
Theorem read_file_ignores_stage (w : World) (v : Z) :
  stage (this (snd (read_file w))) = stage (this w) /\
  read_file (set_this {| stage := v; tmp := tmp (this w) |} w) =
    (fst (read_file w),
     set_this {| stage := v; tmp := tmp (this (snd (read_file w))) |}
       (snd (read_file w))).
Proof.
  unfold_strategies; unfold_ops; cbn.
  destruct (file_at_end (source (reader w))); cbn.
  - split; reflexivity.
  - call_results. split; reflexivity.
Qed.

End Frames.

(** ** The probe of [read_transition] *)

Lemma fgetc_byte (f : FILE) (c : byte) (rest : list byte) :
  pending f = c :: rest ->
  eof_indicator f = false ->
  (fst (fgetc f) =? EOF)%Z = false /\
  ungetc (fst (fgetc f)) (snd (fgetc f)) = f.
Proof.
  intros Hp He. unfold fgetc. rewrite He, Hp. cbn [fst snd].
  assert (Hb : (0 <= Z.of_N (Byte.to_N c) < 256)%Z).
  { pose proof (Byte.to_N_bounded c). lia. }
  assert (Hne : (Z.of_N (Byte.to_N c) =? EOF)%Z = false).
  { apply Z.eqb_neq. unfold EOF. lia. }
  split; [exact Hne|].
  unfold ungetc. rewrite Hne.
  rewrite Z.mod_small by exact Hb.
  rewrite N2Z.id, Byte.of_to_N. cbn.
  destruct f as [p e r]. cbn in *. subst. reflexivity.
Qed.

Lemma stream_ready_true (f : FILE) :
  stream_ready f = true <->
  error_indicator f = false /\ eof_indicator f = false /\ pending f <> [].
Proof.
  unfold stream_ready.
  destruct (error_indicator f), (eof_indicator f), (pending f); cbn;
    intuition (discriminate || congruence).
Qed.

Section Probe.

Context {R : ReaderType}.

Lemma read_transition_ready (w : World) :
  stream_ready (source (reader w)) = true ->
  read_transition w = transition_switch w.
Proof.
  intros Hr. apply stream_ready_true in Hr. destruct Hr as (He & Hf & Hp).
  destruct (pending (source (reader w))) as [|c rest] eqn:Ep; [congruence|].
  destruct (fgetc_byte (source (reader w)) Ep Hf) as [Hne Hback].
  unfold read_transition, std_ferror, std_feof, std_fgetc, std_ungetc, bind, ret.
  rewrite He. cbn. rewrite Hf. cbn.
  destruct (fgetc (source (reader w))) as [p f'] eqn:Eg. cbn in *.
  rewrite Hne. cbn. unfold set_source at 2. cbn. rewrite Hback.
  match goal with
  | |- context [set_source (source (reader w)) ?w1] =>
      replace (set_source (source (reader w)) w1) with w
        by (destruct w as [t [b s] r]; reflexivity)
  end.
  reflexivity.
Qed.

Lemma read_transition_not_ready (w : World) :
  stream_ready (source (reader w)) = false ->
  read_transition w =
    (Ret false,
     if error_indicator (source (reader w)) || eof_indicator (source (reader w))
     then w else set_source (at_eof (source (reader w))) w).
Proof.
  unfold stream_ready, read_transition, std_ferror, std_feof, std_fgetc, bind, ret.
  destruct (error_indicator (source (reader w))) eqn:He; cbn; [reflexivity|].
  destruct (eof_indicator (source (reader w))) eqn:Hf; cbn; [reflexivity|].
  unfold fgetc. rewrite Hf.
  destruct (pending (source (reader w))) eqn:Ep; cbn; [|discriminate].
  unfold at_eof. rewrite He. reflexivity.
Qed.

(** C5: [read_transition] reads lines only from a stream that has no
    error or end-of-file indicator set and a byte to peek; the byte is
    pushed back, so the line reads start on the stream as it was at
    entry.  In every other case it returns false with the module and
    the record as they were; the exhausted stream is left with its
    end-of-file indicator set. *)
Theorem read_transition_probe (w : World) :
  let f := source (reader w) in
  (stream_ready f = true <->
     error_indicator f = false /\ eof_indicator f = false /\ pending f <> []) /\
  (stream_ready f = true ->
     ungetc (fst (fgetc f)) (snd (fgetc f)) = f /\
     read_transition w = transition_switch w) /\
  (error_indicator f = true \/ eof_indicator f = true ->
     read_transition w = (Ret false, w)) /\
  (error_indicator f = false -> eof_indicator f = false -> pending f = [] ->
     read_transition w = (Ret false, set_source (at_eof f) w) /\
     this (set_source (at_eof f) w) = this w /\
     record (set_source (at_eof f) w) = record w) /\
  (fst (read_transition w) = Ret true -> stream_ready f = true).
Proof.
  cbv zeta. split; [apply stream_ready_true|]. split; [|split; [|split]].
  - intros Hr. split; [|apply read_transition_ready; exact Hr].
    apply stream_ready_true in Hr. destruct Hr as (He & Hf & Hp).
    destruct (pending (source (reader w))) as [|c rest] eqn:Ep; [congruence|].
    apply (fgetc_byte (source (reader w)) Ep Hf).
  - intros H. rewrite read_transition_not_ready.
    + destruct H as [-> | ->]; [reflexivity|]. rewrite orb_true_r. reflexivity.
    + unfold stream_ready. destruct H as [-> | ->]; [reflexivity|].
      rewrite andb_false_r. reflexivity.
  - intros He Hf Hp. rewrite read_transition_not_ready.
    + rewrite He, Hf. cbn. repeat split; reflexivity.
    + unfold stream_ready. rewrite Hp. apply andb_false_r.
  - intros H. destruct (stream_ready (source (reader w))) eqn:Hr; [reflexivity|].
    rewrite (read_transition_not_ready w Hr) in H. discriminate H.
Qed.

End Probe.

(** ** The scratch line *)

Section Scratch.

Context {R : ReaderType}.

Lemma buffer_switch_scratch (w w' : World) :
  (stage (this w) = stage_value QUAL -> tmp (this w) = []) ->
  buffer_switch w = (Ret true, w') ->
  tmp (this w') = [].
Proof.
  intros Hq. unfold buffer_switch, get_stage, bind.
  destruct (stage_of_value (stage (this w))) as [[]|] eqn:Es;
    try apply stage_of_value_Some in Es;
    unfold_strategies; unfold_ops; call_results;
    intros [= <-]; cbn; auto.
Qed.

Lemma transition_switch_scratch (w w' : World) :
  (stage (this w) = stage_value QUAL -> tmp (this w) = []) ->
  transition_switch w = (Ret true, w') ->
  tmp (this w') = [].
Proof.
  intros Hq. unfold transition_switch, get_stage, bind.
  destruct (stage_of_value (stage (this w))) as [[]|] eqn:Es;
    try apply stage_of_value_Some in Es;
    unfold_strategies; unfold_ops; call_results;
    intros [= <-]; cbn; auto.
Qed.

Lemma read_buffer_unfold (w : World) :
  read_buffer w =
    if start (buffer (reader w)) <? end_ (buffer (reader w))
    then buffer_switch (set_record empty_record w)
    else (Ret false, set_record empty_record w).
Proof.
  unfold read_buffer, clear, get_buffer, bind, ret, store, set_record.
  cbn [this reader record header seq qual buffer].
  destruct (start (buffer (reader w)) <? end_ (buffer (reader w))); reflexivity.
Qed.

(** C6, amended: a call of [read_buffer] or [read_transition] that
    returns true leaves the scratch line empty, when it is entered with
    the scratch line empty or at a stage before [QUAL]. *)
Theorem scratch_empty_after_quality (w w' : World) :
  (stage (this w) = stage_value QUAL -> tmp (this w) = []) ->
  read_buffer w = (Ret true, w') \/ read_transition w = (Ret true, w') ->
  tmp (this w') = [].
Proof.
  intros Hq [H | H].
  - rewrite read_buffer_unfold in H.
    destruct (start (buffer (reader w)) <? end_ (buffer (reader w)));
      [|discriminate H].
    apply buffer_switch_scratch in H; [exact H|exact Hq].
  - destruct (stream_ready (source (reader w))) eqn:Hr.
    + rewrite (read_transition_ready w Hr) in H.
      apply transition_switch_scratch in H; [exact H|exact Hq].
    + rewrite (read_transition_not_ready w Hr) in H. discriminate H.
Qed.

(** The entry condition on the scratch line holds of a new module and
    after every call of the two strategies. *)
Lemma scratch_condition_kept (w : World) :
  (stage (this w) = stage_value QUAL -> tmp (this w) = []) ->
  (stage (this (snd (read_buffer w))) = stage_value QUAL ->
   tmp (this (snd (read_buffer w))) = []) /\
  (stage (this (snd (read_transition w))) = stage_value QUAL ->
   tmp (this (snd (read_transition w))) = []).
Proof.
  intros Hq. split.
  - rewrite read_buffer_unfold.
    destruct (start (buffer (reader w)) <? end_ (buffer (reader w)));
      [|exact Hq].
    unfold buffer_switch, get_stage, bind. cbn.
    destruct (stage_of_value (stage (this w))) as [[]|] eqn:Es;
      try apply stage_of_value_Some in Es;
      unfold_strategies; unfold_ops; call_results;
      auto; try discriminate.
    all: intros; first [congruence | apply Hq; congruence].
  - destruct (stream_ready (source (reader w))) eqn:Hr.
    + rewrite (read_transition_ready w Hr).
      unfold transition_switch, get_stage, bind. cbn.
      destruct (stage_of_value (stage (this w))) as [[]|] eqn:Es;
        try apply stage_of_value_Some in Es;
        unfold_strategies; unfold_ops; call_results;
        auto; try discriminate.
    + rewrite (read_transition_not_ready w Hr). cbn.
      destruct (_ || _); exact Hq.
Qed.

End Scratch.

(** ** The invalid state *)

Section Invalid.

Context {R : ReaderType}.

Lemma buffer_switch_valid (s : Stage) (w : World) :
  stage_of_value (stage (this w)) = Some s ->
  (exists r, fst (buffer_switch w) = Ret r) /\
  stage_of_value (stage (this (snd (buffer_switch w)))) <> None.
Proof.
  intros Es. unfold buffer_switch, get_stage, bind. rewrite Es.
  destruct s; unfold_strategies; unfold_ops; call_results;
    (split; [eexists; reflexivity|]); try discriminate;
    rewrite Es; discriminate.
Qed.

Lemma transition_switch_valid (s : Stage) (w : World) :
  stage_of_value (stage (this w)) = Some s ->
  fst (transition_switch w) = Ret true /\
  stage (this (snd (transition_switch w))) = stage_value HEADER.
Proof.
  intros Es. unfold transition_switch, get_stage, bind. rewrite Es.
  destruct s; unfold_strategies; unfold_ops; call_results;
    split; reflexivity.
Qed.

(** C8, amended: with a stage value outside the four enumerators, a
    call that reaches the [switch] ends the process with
    [EXIT_FAILURE]: [read_buffer] when the buffer has unread bytes,
    [read_transition] when the stream is ready.  With no unread byte
    or with a stream that is not ready they return false without
    looking at the stage.  From one of the four stage values neither
    function ever ends the process, and the stage it leaves is again
    one of the four. *)
Theorem invalid_stage_exits (w : World) :
  let b := buffer (reader w) in
  let f := source (reader w) in
  (stage_of_value (stage (this w)) = None ->
     read_buffer w =
       (if start b <? end_ b then Exited EXIT_FAILURE else Ret false,
        set_record empty_record w) /\
     fst (read_transition w) =
       (if stream_ready f then Exited EXIT_FAILURE else Ret false)) /\
  (stage_of_value (stage (this w)) <> None ->
     (exists r, fst (read_buffer w) = Ret r) /\
     stage_of_value (stage (this (snd (read_buffer w)))) <> None /\
     (exists r, fst (read_transition w) = Ret r) /\
     stage_of_value (stage (this (snd (read_transition w)))) <> None).
Proof.
  cbv zeta. split.
  - intros Es. split.
    + rewrite read_buffer_unfold.
      destruct (start (buffer (reader w)) <? end_ (buffer (reader w)));
        [|reflexivity].
      unfold buffer_switch, get_stage, bind. cbn [this set_record].
      rewrite Es. reflexivity.
    + destruct (stream_ready (source (reader w))) eqn:Hr.
      * rewrite (read_transition_ready w Hr).
        unfold transition_switch, get_stage, bind. rewrite Es. reflexivity.
      * rewrite (read_transition_not_ready w Hr). reflexivity.
  - intros Es.
    destruct (stage_of_value (stage (this w))) as [s|] eqn:E; [clear Es|congruence].
    rewrite read_buffer_unfold.
    assert (Hb :
      (exists r, fst (if start (buffer (reader w)) <? end_ (buffer (reader w))
                      then buffer_switch (set_record empty_record w)
                      else (Ret false, set_record empty_record w)) = Ret r) /\
      stage_of_value (stage (this (snd
        (if start (buffer (reader w)) <? end_ (buffer (reader w))
         then buffer_switch (set_record empty_record w)
         else (Ret false, set_record empty_record w))))) <> None).
    { destruct (start (buffer (reader w)) <? end_ (buffer (reader w))).
      - apply (@buffer_switch_valid s). exact E.
      - split; [eexists; reflexivity|]. cbn. rewrite E. discriminate. }
    destruct Hb as [Hb1 Hb2]. split; [exact Hb1|]. split; [exact Hb2|].
    destruct (stream_ready (source (reader w))) eqn:Hr.
    + rewrite (read_transition_ready w Hr).
      destruct (transition_switch_valid w E) as [H1 H2].
      split; [eexists; exact H1|]. rewrite H2. discriminate.
    + rewrite (read_transition_not_ready w Hr). cbn.
      split; [eexists; reflexivity|].
      destruct (_ || _); cbn; rewrite E; discriminate.
Qed.

End Invalid.

(** ** Clearing at entry *)

Section Entry.

Context {R : ReaderType}.

Lemma read_buffer_record_irrelevant (w : World) :
  read_buffer w = read_buffer (set_record empty_record w).
Proof. rewrite !read_buffer_unfold. reflexivity. Qed.

Lemma read_buffer_resumed_header (w : World) (s : Stage) :
  stage_of_value (stage (this w)) = Some s ->
  s <> HEADER ->
  header (record (snd (read_buffer w))) = [].
Proof.
  intros Es Hs. rewrite read_buffer_unfold.
  destruct (start (buffer (reader w)) <? end_ (buffer (reader w)));
    [|reflexivity].
  unfold buffer_switch, get_stage, bind. cbn [this set_record]. rewrite Es.
  destruct s; [congruence| | |];
    unfold_strategies; unfold_ops; call_results; reflexivity.
Qed.

Lemma transition_switch_extends (w : World) :
  appends R ->
  exists h s q,
    record (snd (transition_switch w)) =
      {| header := header (record w) ++ h;
         seq := seq (record w) ++ s;
         qual := qual (record w) ++ q |}.
Proof.
  intros HR. unfold transition_switch, get_stage, bind.
  assert (Hsame : exists h s q,
    record w = {| header := header (record w) ++ h;
                  seq := seq (record w) ++ s;
                  qual := qual (record w) ++ q |}).
  { exists [], [], []. rewrite !app_nil_r. destruct (record w); reflexivity. }
  destruct (stage_of_value (stage (this w))) as [[]|]; [| | | |exact Hsame];
    unfold_strategies; unfold_ops; cbn;
    repeat (match goal with
      | |- context [readline_file_append ?d ?f] =>
          let l := fresh "l" in
          let Hl := fresh "Hl" in
          destruct (HR d f) as [l Hl];
          destruct (readline_file_append d f) as [? ?];
          cbn in Hl; subst
      end; cbn);
    do 3 eexists; f_equal;
    first [reflexivity | symmetry; apply app_nil_r].
Qed.

End Entry.

(** ** The reader of the specification: its line reads *)

Lemma unlines_cons (l : CString) (ls : list CString) (more : list byte) :
  unlines (l :: ls) ++ more = l ++ newline :: (unlines ls ++ more).
Proof.
  unfold unlines. cbn [flat_map]. rewrite <- !app_assoc. reflexivity.
Qed.

Lemma split_line_found (l : CString) (rest : list byte) :
  line_content l ->
  SeqReader.split_line (l ++ newline :: rest) = Some (l, rest).
Proof.
  unfold line_content. induction l as [|c l IH]; cbn; intros H.
  - reflexivity.
  - apply orb_false_iff in H. destruct H as [Hc Hl].
    rewrite Hc, (IH Hl). reflexivity.
Qed.

Lemma unread_advance (b : Buffer) (n : nat) :
  SeqReader.unread {| data := data b; start := start b + n; end_ := end_ b |} =
  skipn n (SeqReader.unread b).
Proof.
  unfold SeqReader.unread. cbn [data start end_].
  rewrite skipn_firstn_comm, skipn_skipn.
  f_equal; [lia|]. f_equal. lia.
Qed.

Lemma unread_some (b : Buffer) :
  SeqReader.unread b <> [] -> (start b <? end_ b) = true.
Proof.
  unfold SeqReader.unread. intros H. apply Nat.ltb_lt.
  destruct (Nat.lt_ge_cases (start b) (end_ b)) as [Hlt|Hge]; [exact Hlt|].
  replace (end_ b - start b) with 0 in H by lia. cbn in H. congruence.
Qed.

Lemma readline_buffer_append_line (dest : CString) (b : Buffer)
  (l : CString) (rest : list byte) :
  line_content l ->
  SeqReader.unread b = l ++ newline :: rest ->
  let b' := {| data := data b; start := start b + List.length l + 1; end_ := end_ b |} in
  SeqReader.readline_buffer_append dest b = (true, dest ++ l, b') /\
  SeqReader.unread b' = rest.
Proof.
  intros Hl Hu. cbv zeta. unfold SeqReader.readline_buffer_append.
  rewrite Hu, (split_line_found rest Hl). split; [reflexivity|].
  rewrite <- Nat.add_assoc, unread_advance, Hu.
  replace (List.length l + 1) with (List.length (l ++ [newline]))
    by (rewrite length_app; reflexivity).
  replace (l ++ newline :: rest) with ((l ++ [newline]) ++ rest)
    by (rewrite <- app_assoc; reflexivity).
  rewrite skipn_app, skipn_all, Nat.sub_diag. reflexivity.
Qed.

Lemma readline_file_append_line (dest : CString) (f : FILE)
  (l : CString) (rest : list byte) :
  line_content l ->
  pending f = l ++ newline :: rest ->
  SeqReader.readline_file_append dest f =
    (dest ++ l,
     {| pending := rest; eof_indicator := eof_indicator f;
        error_indicator := error_indicator f |}).
Proof.
  intros Hl Hp. unfold SeqReader.readline_file_append.
  rewrite Hp, (split_line_found rest Hl). reflexivity.
Qed.

Lemma SeqReader_appends : appends SeqReader.methods.
Proof.
  intros dest f. cbn. unfold SeqReader.readline_file_append.
  destruct (SeqReader.split_line (pending f)) as [[line after]|];
    eexists; reflexivity.
Qed.

(** C1, amended: [read_buffer] clears the three record fields at
    entry whatever the stage: its result is the one it has on the
    empty record, and a call entered after the header stage leaves
    the header empty.  [read_transition] clears no record field: each
    field after the call starts with the content it had. *)
Theorem entry_clearing (w : World) :
  (forall R : ReaderType,
     @read_buffer R w = @read_buffer R (set_record empty_record w) /\
     (forall s, stage_of_value (stage (this w)) = Some s -> s <> HEADER ->
        header (record (snd (@read_buffer R w))) = [])) /\
  (exists h s q,
     record (snd (@read_transition SeqReader.methods w)) =
       {| header := header (record w) ++ h;
          seq := seq (record w) ++ s;
          qual := qual (record w) ++ q |}).
Proof.
  split.
  - intros R. split.
    + apply read_buffer_record_irrelevant.
    + intros s. apply read_buffer_resumed_header.
  - destruct (stream_ready (source (reader w))) eqn:Hr.
    + rewrite (read_transition_ready w Hr).
      apply transition_switch_extends. exact SeqReader_appends.
    + rewrite (read_transition_not_ready w Hr).
      exists [], [], []. rewrite !app_nil_r.
      destruct (_ || _); cbn; destruct (record w); reflexivity.
Qed.

(** C1 as stated fails: entered at stage [SEQ] with the header
    ["@r1"] captured, [read_buffer] returns with the header empty. *)
Lemma read_buffer_clears_captured_header :
  stage (this example_2_stalled) = stage_value SEQ /\
  header (record example_2_stalled) = cstr "@r1" /\
  header (record (snd (@read_buffer SeqReader.methods example_2_stalled))) = [].
Proof. repeat split. Qed.

(** ** The stage cycle *)

Lemma world_eta (p : Place) (w : World) :
  store p (load p w) (set_buffer (buffer (reader w)) w) = w.
Proof. destruct p, w as [[v t] [b f] [h s q]]; reflexivity. Qed.

Lemma line_done_stage (s : Stage) (w : World) :
  stage (this (line_done s w)) = stage_value (next_stage s).
Proof. destruct s; reflexivity. Qed.

Section Cycle.

Context {R : ReaderType}.

Lemma buffer_switch_case (s : Stage) (w : World) :
  stage_of_value (stage (this w)) = Some s ->
  buffer_switch w = buffer_case s w.
Proof.
  intros Es. unfold buffer_switch, get_stage, bind. rewrite Es.
  destruct s; reflexivity.
Qed.

Lemma transition_switch_case (s : Stage) (w : World) :
  stage_of_value (stage (this w)) = Some s ->
  transition_switch w = transition_case s w.
Proof.
  intros Es. unfold transition_switch, get_stage, bind. rewrite Es.
  destruct s; reflexivity.
Qed.

Lemma call_readline_buffer_append_returns (p : Place) (w : World) :
  exists ok w1, call_readline_buffer_append p w = (Ret ok, w1).
Proof.
  unfold call_readline_buffer_append.
  destruct (readline_buffer_append _ _) as [[ok s] b]. eexists _, _. reflexivity.
Qed.

Lemma call_readline_file_append_returns (p : Place) (w : World) :
  exists w1, call_readline_file_append p w = (Ret tt, w1).
Proof.
  unfold call_readline_file_append.
  destruct (readline_file_append _ _) as [s f]. eexists. reflexivity.
Qed.

(** Each block of [read_buffer] is one line read: on failure the call
    returns false; on success the block goes on into the next one, and
    the last block returns true. *)
Lemma buffer_case_step (s : Stage) (w w1 : World) (ok : bool) :
  call_readline_buffer_append (stage_place s) w = (Ret ok, w1) ->
  buffer_case s w =
    if ok then
      match s with
      | QUAL => (Ret true, line_done s w1)
      | _ => buffer_case (next_stage s) (line_done s w1)
      end
    else (Ret false, w1).
Proof.
  intros H.
  destruct s; cbn [buffer_case stage_place next_stage] in *;
    unfold buffer_case_HEADER, buffer_case_SEQ, buffer_case_SEP,
      buffer_case_QUAL, bind;
    rewrite H; destruct ok; reflexivity.
Qed.

Lemma transition_case_step (s : Stage) (w w1 : World) :
  call_readline_file_append (stage_place s) w = (Ret tt, w1) ->
  transition_case s w =
    match s with
    | QUAL => (Ret true, line_done s w1)
    | _ => transition_case (next_stage s) (line_done s w1)
    end.
Proof.
  intros H.
  destruct s; cbn [transition_case stage_place next_stage] in *;
    unfold transition_case_HEADER, transition_case_SEQ, transition_case_SEP,
      transition_case_QUAL, bind;
    rewrite H; reflexivity.
Qed.

Lemma buffer_case_run (k : nat) (s : Stage) (w : World) :
  stage_index s + k = 4 ->
  exists n w1,
    lines_read buffer_line n s w w1 /\
    ((buffer_case s w = (Ret true, w1) /\ n = k) \/
     (n < k /\ exists w',
        buffer_case s w = (Ret false, w') /\
        call_readline_buffer_append (stage_place (Nat.iter n next_stage s)) w1 =
          (Ret false, w'))).
Proof.
  revert s w. induction k as [|k IH]; intros s w Hk.
  - destruct s; cbn in Hk; lia.
  - destruct (call_readline_buffer_append_returns (stage_place s) w)
      as (ok & w1 & Hc).
    rewrite (buffer_case_step s w Hc). destruct ok.
    + assert (Hstep : buffer_line s w (line_done s w1)).
      { exists w1. split; [exact Hc|reflexivity]. }
      destruct (Nat.eq_dec k 0) as [->|Hk0].
      * assert (s = QUAL) as -> by (destruct s; cbn in Hk; try lia; reflexivity).
        exists 1, (line_done QUAL w1). split.
        -- eapply lines_read_S; [exact Hstep|apply lines_read_O].
        -- left. split; reflexivity.
      * assert (Hn : stage_index (next_stage s) + k = 4)
          by (destruct s; cbn in *; lia).
        destruct (IH (next_stage s) (line_done s w1) Hn)
          as (n & w2 & Hl & Hres).
        exists (S n), w2. split.
        -- eapply lines_read_S; [exact Hstep|exact Hl].
        -- assert (Hs : s <> QUAL) by (intros ->; cbn in Hk; lia).
           replace (match s with
                    | QUAL => (Ret true, line_done s w1)
                    | _ => buffer_case (next_stage s) (line_done s w1)
                    end) with (buffer_case (next_stage s) (line_done s w1))
             by (destruct s; congruence).
           destruct Hres as [[Ht ->] | (Hlt & w' & Hf & Hcall)].
           ++ left. split; [exact Ht|reflexivity].
           ++ right. split; [lia|]. exists w'. split; [exact Hf|].
              rewrite Nat.iter_succ_r. exact Hcall.
    + exists 0, w. split; [apply lines_read_O|].
      right. split; [lia|]. exists w1. split; [reflexivity|exact Hc].
Qed.

Lemma transition_case_run (k : nat) (s : Stage) (w : World) :
  stage_index s + k = 4 ->
  exists w1,
    lines_read file_call k s w w1 /\ transition_case s w = (Ret true, w1).
Proof.
  revert s w. induction k as [|k IH]; intros s w Hk.
  - destruct s; cbn in Hk; lia.
  - destruct (call_readline_file_append_returns (stage_place s) w) as (w1 & Hc).
    rewrite (transition_case_step s w Hc).
    assert (Hstep : file_call s w (line_done s w1)).
    { exists w1. split; [exact Hc|reflexivity]. }
    destruct (Nat.eq_dec k 0) as [->|Hk0].
    + assert (s = QUAL) as -> by (destruct s; cbn in Hk; try lia; reflexivity).
      exists (line_done QUAL w1). split; [|reflexivity].
      eapply lines_read_S; [exact Hstep|apply lines_read_O].
    + assert (Hn : stage_index (next_stage s) + k = 4)
        by (destruct s; cbn in *; lia).
      destruct (IH (next_stage s) (line_done s w1) Hn) as (w2 & Hl & Hres).
      exists w2. split; [eapply lines_read_S; [exact Hstep|exact Hl]|].
      rewrite <- Hres. destruct s; try reflexivity. cbn in Hk. lia.
Qed.

(** The cursor after [n] steps from stage [s]. *)
Lemma lines_read_stage (step : Stage -> World -> World -> Prop) :
  (forall s w w', step s w w' -> stage (this w') = stage_value (next_stage s)) ->
  forall n s w w',
    lines_read step n s w w' ->
    stage (this w) = stage_value s ->
    stage (this w') = stage_value (Nat.iter n next_stage s).
Proof.
  intros Hstep n s w w' H. induction H as [s w|n s w w1 w2 H1 _ IH]; intros Hs.
  - exact Hs.
  - rewrite Nat.iter_succ_r. apply IH. exact (Hstep _ _ _ H1).
Qed.

Lemma buffer_line_stage (s : Stage) (w w' : World) :
  buffer_line s w w' -> stage (this w') = stage_value (next_stage s).
Proof. intros (w1 & _ & ->). apply line_done_stage. Qed.

Lemma file_call_stage (s : Stage) (w w' : World) :
  file_call s w w' -> stage (this w') = stage_value (next_stage s).
Proof. intros (w1 & _ & ->). apply line_done_stage. Qed.

Lemma failed_call_stage (p : Place) (w w' : World) (ok : bool) :
  call_readline_buffer_append p w = (Ret ok, w') ->
  stage (this w') = stage (this w).
Proof.
  unfold call_readline_buffer_append.
  destruct (readline_buffer_append _ _) as [[ok' c] b].
  intros [= _ <-]. destruct p; reflexivity.
Qed.

End Cycle.

(** C7, amended: the stage cursor moves in the cyclic order HEADER,
    SEQ, SEP, QUAL, HEADER only.  In [read_buffer] it moves one step
    for each line read with success and in no other way: after [n]
    such lines from stage [s] it is [s] moved [n] steps, the call
    returns true exactly when the line of QUAL was read and the cursor
    wrapped to HEADER, and a call that returns false has not wrapped.
    In [read_transition] it moves one step for each call of the stream
    line read, whose result is not tested: on a ready stream the call
    makes the reads of every stage from [s] to QUAL, wraps to HEADER
    and returns true, whatever the stream delivered; on a stream that
    is not ready it returns false and the cursor stays. *)
Theorem stage_cycle (R : ReaderType) (s : Stage) (w : World) :
  stage (this w) = stage_value s ->
  (exists n w1,
     lines_read buffer_line n s (set_record empty_record w) w1 /\
     stage (this (snd (read_buffer w))) = stage_value (Nat.iter n next_stage s) /\
     ((read_buffer w = (Ret true, w1) /\ stage_index s + n = 4 /\
       stage (this w1) = stage_value HEADER) \/
      (fst (read_buffer w) = Ret false /\ stage_index s + n < 4 /\
       ((start (buffer (reader w)) <? end_ (buffer (reader w))) = false /\ n = 0 \/
        call_readline_buffer_append (stage_place (Nat.iter n next_stage s)) w1 =
          (Ret false, snd (read_buffer w)))))) /\
  (exists n w1,
     lines_read file_call n s w w1 /\
     stage (this (snd (read_transition w))) = stage_value (Nat.iter n next_stage s) /\
     ((read_transition w = (Ret true, w1) /\ stage_index s + n = 4 /\
       stage (this w1) = stage_value HEADER) \/
      (fst (read_transition w) = Ret false /\ n = 0 /\
       stream_ready (source (reader w)) = false))).
Proof.
  intros Hs.
  assert (Es : stage_of_value (stage (this w)) = Some s)
    by (rewrite Hs; apply stage_of_value_stage_value).
  assert (Hk : stage_index s + (4 - stage_index s) = 4) by (destruct s; reflexivity).
  split.
  - rewrite read_buffer_unfold.
    destruct (start (buffer (reader w)) <? end_ (buffer (reader w))) eqn:Hb.
    + rewrite (@buffer_switch_case R s (set_record empty_record w) Es).
      destruct (@buffer_case_run R _ _ (set_record empty_record w) Hk)
        as (n & w1 & Hl & Hres).
      pose proof (lines_read_stage (@buffer_line_stage R) Hl Hs) as Hst.
      exists n, w1. split; [exact Hl|].
      destruct Hres as [[Ht ->] | (Hlt & w' & Hf & Hcall)].
      * rewrite Ht. cbn [fst snd]. split; [exact Hst|]. left.
        split; [reflexivity|]. split; [exact Hk|].
        rewrite Hst, (@stage_index_wrap s _ Hk). reflexivity.
      * rewrite Hf. cbn [fst snd]. split.
        -- rewrite (failed_call_stage _ _ Hcall). exact Hst.
        -- right. split; [reflexivity|]. split; [lia|]. right. exact Hcall.
    + exists 0, (set_record empty_record w). cbn [fst snd Nat.iter].
      split; [apply lines_read_O|]. split; [exact Hs|].
      right. split; [reflexivity|]. split; [destruct s; cbn; lia|].
      left. split; reflexivity.
  - destruct (stream_ready (source (reader w))) eqn:Hr.
    + rewrite (read_transition_ready w Hr), (transition_switch_case w Es).
      destruct (@transition_case_run R _ _ w Hk) as (w1 & Hl & Hres).
      pose proof (lines_read_stage (@file_call_stage R) Hl Hs) as Hst.
      exists (4 - stage_index s), w1. rewrite Hres. cbn [fst snd].
      split; [exact Hl|]. split; [exact Hst|]. left.
      split; [reflexivity|]. split; [exact Hk|].
      rewrite Hst, (@stage_index_wrap s _ Hk). reflexivity.
    + rewrite (read_transition_not_ready w Hr).
      exists 0, w. cbn [fst snd Nat.iter]. split; [apply lines_read_O|]. split.
      * destruct (_ || _); exact Hs.
      * right. repeat split.
Qed.

(** The stage cycle on Example 2 after its first call: at stage SEQ the
    buffer has no terminator left, and the stream holds the three
    lines that complete the record. *)
Lemma stage_cycle_witness :
  stage (this example_2_stalled) = stage_value SEQ /\
  exists n w1,
    lines_read (@file_call SeqReader.methods) n SEQ example_2_stalled w1 /\
    stage (this (snd (@read_transition SeqReader.methods example_2_stalled))) =
      stage_value (Nat.iter n next_stage SEQ) /\
    ((@read_transition SeqReader.methods example_2_stalled = (Ret true, w1) /\
      stage_index SEQ + n = 4 /\ stage (this w1) = stage_value HEADER) \/
     (fst (@read_transition SeqReader.methods example_2_stalled) = Ret false /\
      n = 0 /\ stream_ready (source (reader example_2_stalled)) = false)).
Proof.
  split; [reflexivity|].
  exact (proj2 (@stage_cycle SeqReader.methods SEQ example_2_stalled eq_refl)).
Defined.

(** C7 as stated fails: entered at stage SEQ on a stream that ends
    after the sequence line, [read_transition] returns true with the
    stage at HEADER; the cursor has moved three steps for one line, and
    wrapped with no quality line read. *)
Lemma read_transition_wraps_on_truncated_stream :
  stage (this example_truncated) = stage_value SEQ /\
  pending (source (reader example_truncated)) = unlines [cstr "ACGT"] /\
  @read_transition SeqReader.methods example_truncated =
    (Ret true,
     {| this := {| stage := stage_value HEADER; tmp := [] |};
        reader :=
          {| buffer := buffer (reader example_truncated);
             source := at_eof (source (reader example_truncated)) |};
        record := {| header := cstr "@r1"; seq := cstr "ACGT"; qual := [] |} |}).
Proof. repeat split. Qed.

(** ** Incomplete calls *)

Lemma buffer_switch_stalled (w w' : World) :
  @buffer_switch SeqReader.methods w = (Ret false, w') ->
  (exists s, stage_of_value (stage (this w')) = Some s) /\
  SeqReader.split_line (SeqReader.unread (buffer (reader w'))) = None.
Proof.
  intros H.
  destruct (stage_of_value (stage (this w))) as [s|] eqn:Es.
  - rewrite (buffer_switch_case w Es) in H.
    assert (Hk : stage_index s + (4 - stage_index s) = 4) by (destruct s; reflexivity).
    destruct (@buffer_case_run SeqReader.methods _ _ w Hk)
      as (n & w1 & Hl & [[Ht _] | (_ & w2 & Hf & Hcall)]); [congruence|].
    rewrite Hf in H. injection H as ->.
    pose proof (lines_read_stage (@buffer_line_stage SeqReader.methods) Hl
                  (stage_of_value_Some _ Es)) as Hst.
    revert Hcall. unfold call_readline_buffer_append. cbn [readline_buffer_append SeqReader.methods].
    unfold SeqReader.readline_buffer_append.
    destruct (SeqReader.split_line (SeqReader.unread (buffer (reader w1))))
      as [[line after]|] eqn:En; [discriminate|].
    rewrite world_eta. intros [= <-]. split; [|exact En].
    eexists. rewrite Hst. apply stage_of_value_stage_value.
  - unfold buffer_switch, get_stage, bind in H. rewrite Es in H. discriminate H.
Qed.

Lemma stalled_read_buffer (w : World) (s : Stage) :
  stage_of_value (stage (this w)) = Some s ->
  SeqReader.split_line (SeqReader.unread (buffer (reader w))) = None ->
  @read_buffer SeqReader.methods w = (Ret false, set_record empty_record w).
Proof.
  intros Es Hn. rewrite read_buffer_unfold.
  destruct (start (buffer (reader w)) <? end_ (buffer (reader w)));
    [|reflexivity].
  rewrite (@buffer_switch_case SeqReader.methods s (set_record empty_record w) Es).
  assert (Hc : @call_readline_buffer_append SeqReader.methods (stage_place s)
                 (set_record empty_record w) =
               (Ret false, set_record empty_record w)).
  { unfold call_readline_buffer_append. cbn [readline_buffer_append SeqReader.methods].
    unfold SeqReader.readline_buffer_append. cbn [reader set_record].
    rewrite Hn.
    change (buffer (reader w)) with (buffer (reader (set_record empty_record w))).
    rewrite world_eta. reflexivity. }
  rewrite (buffer_case_step s _ Hc). reflexivity.
Qed.

(** C2, amended: with no unread byte in the buffer window,
    [read_buffer] returns false and leaves stage, scratch line and
    reader as they were, while the three record fields are cleared.
    A call repeated on the world an incomplete call left returns false
    again; stage, scratch line and reader stay as that call left them,
    and the record fields it had captured are cleared. *)
Theorem incompletion_repeats (w : World) :
  (forall R : ReaderType,
     (start (buffer (reader w)) <? end_ (buffer (reader w))) = false ->
     @read_buffer R w = (Ret false, set_record empty_record w)) /\
  (forall w',
     @read_buffer SeqReader.methods w = (Ret false, w') ->
     @read_buffer SeqReader.methods w' = (Ret false, set_record empty_record w')).
Proof.
  split.
  - intros R Hb. rewrite read_buffer_unfold, Hb. reflexivity.
  - intros w'. rewrite read_buffer_unfold.
    destruct (start (buffer (reader w)) <? end_ (buffer (reader w))) eqn:Hb.
    + intros H. apply buffer_switch_stalled in H.
      destruct H as [[s Es] Hn]. exact (stalled_read_buffer w' Es Hn).
    + intros [= <-]. rewrite read_buffer_unfold. cbn [reader set_record].
      rewrite Hb. reflexivity.
Qed.

(** C2 as stated fails: with no unread byte in the buffer,
    [read_buffer] returns false and the captured header ["@r1"] is
    gone. *)
Lemma read_buffer_drained_clears_header :
  start (buffer (reader example_drained)) = end_ (buffer (reader example_drained)) /\
  header (record example_drained) = cstr "@r1" /\
  @read_buffer SeqReader.methods example_drained =
    (Ret false, set_record empty_record example_drained) /\
  header (record (snd (@read_buffer SeqReader.methods example_drained))) = [].
Proof. repeat split. Qed.

(** C6 as stated fails: [read_file] returns true on Example 4 and the
    scratch line holds the separator line; and entered at stage QUAL
    with such a scratch line, [read_buffer] returns true and leaves it
    as it was. *)
Lemma read_file_keeps_separator :
  (fst (@read_file SeqReader.methods example_4) = Ret true /\
   tmp (this (snd (@read_file SeqReader.methods example_4))) = cstr "+") /\
  (stage (this example_scratch_left) = stage_value QUAL /\
   fst (@read_buffer SeqReader.methods example_scratch_left) = Ret true /\
   tmp (this (snd (@read_buffer SeqReader.methods example_scratch_left))) = cstr "+").
Proof. repeat split. Qed.

(** The scratch line after the whole record of Example 1. *)
Lemma scratch_empty_after_quality_witness :
  (stage (this example_1) = stage_value QUAL -> tmp (this example_1) = []) /\
  tmp (this (snd (@read_buffer SeqReader.methods example_1))) = [].
Proof.
  split.
  - intros _. reflexivity.
  - apply (@scratch_empty_after_quality SeqReader.methods example_1).
    + intros _. reflexivity.
    + left. vm_compute. reflexivity.
Defined.

(** C8 as stated fails: with the stage value 7 and no unread byte in
    the buffer, or a stream at its end, both functions return false. *)
Lemma invalid_stage_returns :
  stage_of_value (stage (this (corrupted example_3))) = None /\
  fst (@read_buffer SeqReader.methods (corrupted example_3)) = Ret false /\
  fst (@read_transition SeqReader.methods (corrupted example_3)) = Ret false.
Proof. repeat split. Qed.

(** ** Whole records *)

Lemma call_buffer_line (p : Place) (w : World) (l : CString) (rest : list byte) :
  SeqReader.unread (buffer (reader w)) = l ++ newline :: rest ->
  line_content l ->
  let b' := {| data := data (buffer (reader w));
               start := start (buffer (reader w)) + List.length l + 1;
               end_ := end_ (buffer (reader w)) |} in
  @call_readline_buffer_append SeqReader.methods p w =
    (Ret true, store p (load p w ++ l) (set_buffer b' w)) /\
  SeqReader.unread b' = rest.
Proof.
  intros Hu Hl. cbv zeta.
  destruct (@readline_buffer_append_line (load p w) (buffer (reader w)) l rest Hl Hu)
    as [E U].
  split; [|exact U].
  unfold call_readline_buffer_append. cbn [readline_buffer_append SeqReader.methods].
  rewrite E. reflexivity.
Qed.

Lemma call_buffer_stall (p : Place) (w : World) :
  SeqReader.unread (buffer (reader w)) = [] ->
  @call_readline_buffer_append SeqReader.methods p w = (Ret false, w).
Proof.
  intros Hu. unfold call_readline_buffer_append.
  cbn [readline_buffer_append SeqReader.methods].
  unfold SeqReader.readline_buffer_append. rewrite Hu. cbn [SeqReader.split_line].
  rewrite world_eta. reflexivity.
Qed.

Lemma call_file_line (p : Place) (w : World) (l : CString) (rest : list byte) :
  pending (source (reader w)) = l ++ newline :: rest ->
  line_content l ->
  @call_readline_file_append SeqReader.methods p w =
    (Ret tt,
     store p (load p w ++ l)
       (set_source {| pending := rest;
                      eof_indicator := eof_indicator (source (reader w));
                      error_indicator := error_indicator (source (reader w)) |} w)).
Proof.
  intros Hp Hl. unfold call_readline_file_append.
  cbn [readline_file_append SeqReader.methods].
  rewrite (@readline_file_append_line (load p w) (source (reader w)) l rest Hl Hp).
  reflexivity.
Qed.

Lemma call_direct_line (p : Place) (w : World) (l : CString) (rest : list byte) :
  pending (source (reader w)) = l ++ newline :: rest ->
  line_content l ->
  @call_readline_file SeqReader.methods p w =
    (Ret tt,
     store p l
       (set_source {| pending := rest;
                      eof_indicator := eof_indicator (source (reader w));
                      error_indicator := error_indicator (source (reader w)) |} w)).
Proof.
  intros Hp Hl. unfold call_readline_file.
  cbn [readline_file SeqReader.methods]. unfold SeqReader.readline_file.
  rewrite (@readline_file_append_line [] (source (reader w)) l rest Hl Hp).
  reflexivity.
Qed.

(** Worlds built by [store] and the setters, as records. *)
Ltac simpl_world :=
  unfold line_done, store, load, stage_place, set_buffer, set_source,
    set_record, set_reader, set_this, empty_record;
  cbn [this reader record buffer source header seq qual stage tmp data start
       end_ pending eof_indicator error_indicator next_stage stage_value app
       skipn firstn].

(** One line of the buffer read by the block of stage [s]. *)
Ltac buffer_reads_line :=
  lazymatch goal with
  | |- context [@buffer_case _ ?s ?w] =>
      let E := fresh "E" in
      let U := fresh "U" in
      edestruct (@call_buffer_line (stage_place s) w) as [E U];
      [cbn -[unlines SeqReader.unread]; eassumption | assumption |];
      rewrite (buffer_case_step s w E);
      clear E; cbn -[unlines SeqReader.unread] in U;
      cbv beta iota delta [next_stage]; simpl_world;
      try rewrite unlines_cons in U
  end.

(** The block of stage [s] finds no unread byte. *)
Ltac buffer_stalls :=
  lazymatch goal with
  | |- context [@buffer_case _ ?s ?w] =>
      let E := fresh "E" in
      assert (E : @call_readline_buffer_append SeqReader.methods (stage_place s) w =
                  (Ret false, w))
        by (apply call_buffer_stall; cbn -[unlines SeqReader.unread]; assumption);
      rewrite (buffer_case_step s w E); clear E; cbv beta iota; simpl_world
  end.

(** One line of the stream read by the block of stage [s]. *)
Ltac stream_reads_line :=
  lazymatch goal with
  | |- context [@transition_case _ ?s ?w] =>
      let E := fresh "E" in
      eassert (E : _);
      [eapply (@call_file_line (stage_place s) w); [cbn -[unlines]; try rewrite unlines_cons; reflexivity | assumption] |];
      rewrite (transition_case_step s w E);
      clear E; cbv beta iota delta [next_stage]; simpl_world
  end.

(** C3: from stage HEADER, with the four lines of a record at the
    front of the buffer's unread bytes, one call of [read_buffer]
    returns true; header, sequence and quality hold the first, second
    and fourth line without their terminators, the separator line is
    dropped, the stage is HEADER again, and the unread bytes are those
    after the record.  The witness is Example 1. *)
Theorem read_buffer_whole_record (w : World) (h s p q : CString) (more : list byte) :
  line_content h -> line_content s -> line_content p -> line_content q ->
  stage (this w) = stage_value HEADER ->
  SeqReader.unread (buffer (reader w)) = unlines [h; s; p; q] ++ more ->
  exists w',
    @read_buffer SeqReader.methods w = (Ret true, w') /\
    record w' = {| header := h; seq := s; qual := q |} /\
    this w' = {| stage := stage_value HEADER; tmp := [] |} /\
    SeqReader.unread (buffer (reader w')) = more /\
    source (reader w') = source (reader w).
Proof.
  intros Hh Hs Hp Hq Hst Hu.
  rewrite read_buffer_unfold, unread_some
    by (rewrite Hu, unlines_cons; destruct h; discriminate).
  rewrite (@buffer_switch_case _ HEADER)
    by (cbn; rewrite Hst; reflexivity).
  rewrite unlines_cons in Hu.
  destruct w as [[v t] [[d st e] f] r]. cbn -[unlines SeqReader.unread] in Hu, Hst.
  simpl_world.
  buffer_reads_line. buffer_reads_line. buffer_reads_line. buffer_reads_line.
  eexists. split; [reflexivity|]. cbn. repeat split. exact U2.
Qed.

(** The whole record of Example 1. *)
Lemma read_buffer_whole_record_witness :
  (line_content (cstr "@r1") /\ line_content (cstr "ACGT") /\
   line_content (cstr "+") /\ line_content (cstr "!!!!") /\
   stage (this example_1) = stage_value HEADER /\
   SeqReader.unread (buffer (reader example_1)) =
     unlines [cstr "@r1"; cstr "ACGT"; cstr "+"; cstr "!!!!"] ++ []) /\
  exists w',
    @read_buffer SeqReader.methods example_1 = (Ret true, w') /\
    record w' = {| header := cstr "@r1"; seq := cstr "ACGT"; qual := cstr "!!!!" |} /\
    this w' = {| stage := stage_value HEADER; tmp := [] |} /\
    SeqReader.unread (buffer (reader w')) = [] /\
    source (reader w') = source (reader example_1).
Proof.
  split; [repeat split|].
  apply (@read_buffer_whole_record example_1
           (cstr "@r1") (cstr "ACGT") (cstr "+") (cstr "!!!!") []);
    reflexivity.
Defined.

Lemma unlines_ready (l : CString) (ls : list CString) (more : list byte) (e r : bool) :
  SeqReader.file_at_end
    {| pending := unlines (l :: ls) ++ more; eof_indicator := e; error_indicator := r |} = false /\
  stream_ready
    {| pending := unlines (l :: ls) ++ more; eof_indicator := false;
       error_indicator := false |} = true.
Proof. rewrite unlines_cons. destruct l; split; reflexivity. Qed.

(** [read_file] on a stream that starts with the four lines of a
    record. *)
Lemma read_file_record (w : World) (h s p q : CString) (rest : list byte) :
  line_content h -> line_content s -> line_content p -> line_content q ->
  pending (source (reader w)) = unlines [h; s; p; q] ++ rest ->
  @read_file SeqReader.methods w =
    (Ret true,
     {| this := {| stage := stage (this w); tmp := p |};
        reader :=
          {| buffer := buffer (reader w);
             source := {| pending := rest;
                          eof_indicator := eof_indicator (source (reader w));
                          error_indicator := error_indicator (source (reader w)) |} |};
        record := {| header := h; seq := s; qual := q |} |}).
Proof.
  intros Hh Hs Hp Hq Hpend.
  destruct w as [[v t] [b [pd e r]] rc]. cbn -[unlines] in Hpend. subst pd.
  unfold read_file, call_file_at_end, bind, ret.
  cbn [file_at_end SeqReader.methods reader source].
  rewrite (proj1 (unlines_ready h [s; p; q] rest e r)). cbn [negb].
  repeat lazymatch goal with
  | |- context [@call_readline_file _ ?pl ?w] =>
      let E := fresh "E" in
      eassert (E : _);
      [eapply (@call_direct_line pl w);
       [cbn -[unlines]; rewrite unlines_cons; reflexivity | assumption] |];
      rewrite E; clear E
  end.
  reflexivity.
Qed.

(** C4: a record split after its line [k] between the buffer and the
    stream.  From stage HEADER [read_buffer] returns false at the stage
    of line [k+1] with the fields of the first [k] lines filled;
    [read_transition] then returns true, and the record it leaves is
    the record [read_file] leaves when it reads the unsplit text from
    a stream. *)
Theorem split_record_equivalence (k : nat) (w wd : World)
  (h s p q : CString) (tail : list byte) :
  1 <= k <= 3 ->
  line_content h -> line_content s -> line_content p -> line_content q ->
  stage (this w) = stage_value HEADER ->
  SeqReader.unread (buffer (reader w)) = unlines (firstn k [h; s; p; q]) ->
  source (reader w) =
    {| pending := unlines (skipn k [h; s; p; q]) ++ tail;
       eof_indicator := false; error_indicator := false |} ->
  pending (source (reader wd)) = unlines [h; s; p; q] ++ tail ->
  exists w1 w2 wd',
    @read_buffer SeqReader.methods w = (Ret false, w1) /\
    stage (this w1) = stage_value (Nat.iter k next_stage HEADER) /\
    record w1 = {| header := h; seq := if 2 <=? k then s else []; qual := [] |} /\
    @read_transition SeqReader.methods w1 = (Ret true, w2) /\
    @read_file SeqReader.methods wd = (Ret true, wd') /\
    record w2 = record wd' /\
    record w2 = {| header := h; seq := s; qual := q |} /\
    stage (this w2) = stage_value HEADER /\
    pending (source (reader w2)) = tail /\
    pending (source (reader wd')) = tail.
Proof.
  intros Hk Hh Hs Hp Hq Hst Hu Hsrc Hd.
  rewrite (@read_file_record wd h s p q tail Hh Hs Hp Hq Hd).
  rewrite read_buffer_unfold, unread_some
    by (rewrite Hu; destruct k as [|[|[|[|k]]]]; try lia;
        cbn [firstn]; rewrite <- (app_nil_r (unlines _)), unlines_cons;
        destruct h; discriminate).
  rewrite (@buffer_switch_case _ HEADER)
    by (cbn; rewrite Hst; reflexivity).
  rewrite <- (app_nil_r (unlines _)) in Hu.
  destruct w as [[v t] [[d st e] f] r].
  cbn -[unlines SeqReader.unread] in Hu, Hst, Hsrc. subst f.
  simpl_world.
  destruct k as [|[|[|[|k]]]]; try lia;
    cbn [firstn] in Hu; rewrite unlines_cons in Hu.
  - (* split after the header *)
    buffer_reads_line.
    buffer_stalls.
    eexists _, _, _. split; [reflexivity|].
    split; [reflexivity|]. split; [reflexivity|].
    simpl_world.
    rewrite read_transition_ready by (simpl_world; apply (proj2 (unlines_ready _ _ _ false false))).
    rewrite (@transition_switch_case _ SEQ) by reflexivity.
    stream_reads_line. stream_reads_line. stream_reads_line.
    repeat split.
  - (* split after the sequence *)
    buffer_reads_line. buffer_reads_line.
    buffer_stalls.
    eexists _, _, _. split; [reflexivity|].
    split; [reflexivity|]. split; [reflexivity|].
    simpl_world.
    rewrite read_transition_ready by (simpl_world; apply (proj2 (unlines_ready _ _ _ false false))).
    rewrite (@transition_switch_case _ SEP) by reflexivity.
    stream_reads_line. stream_reads_line.
    repeat split.
  - (* split after the separator *)
    buffer_reads_line. buffer_reads_line. buffer_reads_line.
    buffer_stalls.
    eexists _, _, _. split; [reflexivity|].
    split; [reflexivity|]. split; [reflexivity|].
    simpl_world.
    rewrite read_transition_ready by (simpl_world; apply (proj2 (unlines_ready _ _ _ false false))).
    rewrite (@transition_switch_case _ QUAL) by reflexivity.
    stream_reads_line.
    repeat split.
Qed.

(** The record of Example 1 split after its header line. *)
Lemma split_record_equivalence_witness :
  (1 <= 1 <= 3 /\
   line_content (cstr "@r1") /\ line_content (cstr "ACGT") /\
   line_content (cstr "+") /\ line_content (cstr "!!!!") /\
   stage (this example_split) = stage_value HEADER /\
   SeqReader.unread (buffer (reader example_split)) = unlines [cstr "@r1"] /\
   source (reader example_split) =
     stream_of (unlines [cstr "ACGT"; cstr "+"; cstr "!!!!"] ++ []) /\
   pending (source (reader example_unsplit)) =
     unlines [cstr "@r1"; cstr "ACGT"; cstr "+"; cstr "!!!!"] ++ []) /\
  exists w1 w2 wd',
    @read_buffer SeqReader.methods example_split = (Ret false, w1) /\
    stage (this w1) = stage_value SEQ /\
    record w1 = {| header := cstr "@r1"; seq := []; qual := [] |} /\
    @read_transition SeqReader.methods w1 = (Ret true, w2) /\
    @read_file SeqReader.methods example_unsplit = (Ret true, wd') /\
    record w2 = record wd' /\
    record w2 = {| header := cstr "@r1"; seq := cstr "ACGT"; qual := cstr "!!!!" |} /\
    stage (this w2) = stage_value HEADER /\
    pending (source (reader w2)) = [] /\
    pending (source (reader wd')) = [].
Proof.
  split; [repeat split; lia|].
  apply (@split_record_equivalence 1 example_split example_unsplit
           (cstr "@r1") (cstr "ACGT") (cstr "+") (cstr "!!!!") []);
    try reflexivity.
  lia.
Defined.

(** ** The direct strategy *)

Lemma read_file_reads (R : ReaderType) (w : World) :
  read_file w =
    if file_at_end (source (reader w)) then (Ret false, w)
    else (Ret true, direct_reads w).
Proof.
  unfold read_file, call_file_at_end, bind, ret.
  destruct (file_at_end (source (reader w))); cbn [negb]; [reflexivity|].
  unfold direct_reads, direct_read. cbn [fold_left].
  repeat match goal with
    | |- context [call_readline_file ?p ?w0] =>
        let w1 := fresh "w" in
        let E := fresh "E" in
        assert (E : exists w1, call_readline_file p w0 = (Ret tt, w1))
          by (unfold call_readline_file;
              destruct (readline_file _ _); eexists; reflexivity);
        destruct E as [w1 E]; rewrite E; clear E; cbn [snd]
    end.
  reflexivity.
Qed.

(** C9: [read_file] returns false exactly when the reader's end test
    finds the stream at its end, and then changes nothing; otherwise
    it returns true after four line reads into header, sequence,
    scratch line and quality, in this order, whatever the stage.  The
    end test of the specification's reader holds exactly of a stream
    with no byte left, and on a stream that starts with the four lines
    of a record the three fields and the scratch line hold the lines.
    The witness is Example 4. *)
Theorem read_file_direct (w : World) :
  (forall R : ReaderType,
     (fst (@read_file R w) = Ret false <-> file_at_end (source (reader w)) = true) /\
     (file_at_end (source (reader w)) = true -> @read_file R w = (Ret false, w)) /\
     (file_at_end (source (reader w)) = false ->
        @read_file R w = (Ret true, direct_reads w))) /\
  (SeqReader.file_at_end (source (reader w)) = true <->
     pending (source (reader w)) = []) /\
  (forall (h s p q : CString) (rest : list byte),
     line_content h -> line_content s -> line_content p -> line_content q ->
     pending (source (reader w)) = unlines [h; s; p; q] ++ rest ->
     @read_file SeqReader.methods w =
       (Ret true,
        {| this := {| stage := stage (this w); tmp := p |};
           reader :=
             {| buffer := buffer (reader w);
                source := {| pending := rest;
                             eof_indicator := eof_indicator (source (reader w));
                             error_indicator := error_indicator (source (reader w)) |} |};
           record := {| header := h; seq := s; qual := q |} |})).
Proof.
  split; [|split].
  - intros R. rewrite read_file_reads.
    destruct (file_at_end (source (reader w))); cbn [fst];
      repeat split; intros; congruence.
  - unfold SeqReader.file_at_end.
    destruct (pending (source (reader w))); split; intros; congruence.
  - intros h s p q rest. apply read_file_record.
Qed.

(** The direct strategy on Example 4. *)
Lemma read_file_direct_witness :
  @read_file SeqReader.methods example_4 =
    (Ret true,
     {| this := {| stage := stage_value HEADER; tmp := cstr "+" |};
        reader := {| buffer := no_buffer; source := exhausted_stream |};
        record := {| header := cstr "@r2"; seq := cstr "TTTT"; qual := cstr "####" |} |}).
Proof.
  apply (proj2 (proj2 (read_file_direct example_4))
           (cstr "@r2") (cstr "TTTT") (cstr "+") (cstr "####") []);
    reflexivity.
Defined.

(** The probe on Example 3: the stream is at its true end and the
    stage is HEADER. *)
Lemma read_transition_probe_witness :
  @read_transition SeqReader.methods example_3 =
    (Ret false, set_source (at_eof exhausted_stream) example_3) /\
  this (set_source (at_eof exhausted_stream) example_3) = this example_3 /\
  record (set_source (at_eof exhausted_stream) example_3) = record example_3.
Proof.
  apply (proj1 (proj2 (proj2 (proj2
           (@read_transition_probe SeqReader.methods example_3)))));
    reflexivity.
Defined.

(** * Further properties of the three strategies *)

(** ** What a call of [read_buffer] leaves in the record *)

Section ThisCall.

Context {R : ReaderType}.

(** X1: after a call of [read_buffer] the record holds nothing but
    what this call read.  The field of a stage before the stage at
    entry is empty, also when the call returns true; and when the
    call returns false, the field of a stage after the stage it
    stopped at is empty. *)
Theorem read_buffer_record_of_this_call (s t : Stage) (w : World) :
  stage (this w) = stage_value s ->
  t <> SEP ->
  (stage_index t < stage_index s ->
     load (stage_place t) (snd (read_buffer w)) = []) /\
  (fst (read_buffer w) = Ret false ->
     forall u, stage (this (snd (read_buffer w))) = stage_value u ->
       stage_index u < stage_index t ->
       load (stage_place t) (snd (read_buffer w)) = []).
Proof.
  intros Hs Ht.
  assert (Es : stage_of_value (stage (this w)) = Some s)
    by (rewrite Hs; apply stage_of_value_stage_value).
  rewrite read_buffer_unfold.
  destruct (start (buffer (reader w)) <? end_ (buffer (reader w))).
  - unfold buffer_switch, get_stage, bind. cbn [this set_record]. rewrite Es.
    destruct s, t; try congruence;
      unfold_strategies; unfold_ops; call_results;
      (split; [intros Hlt; try reflexivity; cbn in Hlt; lia|]);
      intros Hf u Hu Hlt; try discriminate Hf; try reflexivity;
      destruct u; cbn in Hu, Hlt; try lia; congruence.
  - cbn [fst snd]. split.
    + intros _. destruct t; try congruence; reflexivity.
    + intros _ u _ _. destruct t; try congruence; reflexivity.
Qed.

End ThisCall.

(** The header after a call entered at stage SEQ on Example 2, and the
    quality field after the call stopped at SEQ. *)
Lemma read_buffer_record_of_this_call_witness :
  (stage (this example_2_stalled) = stage_value SEQ /\ HEADER <> SEP) /\
  (stage_index HEADER < stage_index SEQ ->
     load (stage_place HEADER)
       (snd (@read_buffer SeqReader.methods example_2_stalled)) = []) /\
  (fst (@read_buffer SeqReader.methods example_2_stalled) = Ret false ->
     forall u,
       stage (this (snd (@read_buffer SeqReader.methods example_2_stalled))) =
         stage_value u ->
       stage_index u < stage_index HEADER ->
       load (stage_place HEADER)
         (snd (@read_buffer SeqReader.methods example_2_stalled)) = []).
Proof.
  split; [split; [reflexivity|discriminate]|].
  apply (@read_buffer_record_of_this_call SeqReader.methods SEQ HEADER
           example_2_stalled); [reflexivity|discriminate].
Defined.

(** ** The end of the stream *)

Section StickyEnd.

Context {R : ReaderType}.

(** X2: the end of input is final for [read_transition].  Once a call
    has returned false, a further call returns false as well and
    changes nothing, not even the stream: the end-of-file indicator
    the first probe set keeps the second from reading. *)
Theorem read_transition_end_is_final (w : World) :
  fst (read_transition w) = Ret false ->
  read_transition (snd (read_transition w)) =
    (Ret false, snd (read_transition w)).
Proof.
  intros H.
  destruct (stream_ready (source (reader w))) eqn:Hr.
  - exfalso. revert H. rewrite (read_transition_ready w Hr).
    unfold transition_switch, get_stage, bind.
    destruct (stage_of_value (stage (this w))) as [[]|];
      unfold_strategies; unfold_ops; call_results; discriminate.
  - rewrite (read_transition_not_ready w Hr). cbn [snd].
    destruct (error_indicator (source (reader w))
              || eof_indicator (source (reader w))) eqn:Hi.
    + rewrite (read_transition_not_ready w Hr), Hi. reflexivity.
    + apply orb_false_iff in Hi. destruct Hi as [He Hf].
      rewrite read_transition_not_ready
        by (unfold stream_ready; cbn; rewrite He; reflexivity).
      cbn. rewrite orb_true_r. reflexivity.
Qed.

End StickyEnd.

(** The second call on Example 3. *)
Lemma read_transition_end_is_final_witness :
  fst (@read_transition SeqReader.methods example_3) = Ret false /\
  @read_transition SeqReader.methods
    (snd (@read_transition SeqReader.methods example_3)) =
    (Ret false, snd (@read_transition SeqReader.methods example_3)).
Proof.
  split; [reflexivity|].
  apply (@read_transition_end_is_final SeqReader.methods example_3).
  reflexivity.
Defined.

(** ** Records in a row *)

Lemma split_line_absent (l : list byte) :
  line_content l -> SeqReader.split_line l = None.
Proof.
  unfold line_content. induction l as [|c l IH]; cbn; intros H.
  - reflexivity.
  - apply orb_false_iff in H. destruct H as [Hc Hl].
    rewrite Hc, (IH Hl). reflexivity.
Qed.

Lemma flat_map_record_text (r : FastqLines) (rs : list FastqLines) (more : list byte) :
  flat_map record_text (r :: rs) ++ more =
  unlines [line_header r; line_seq r; line_sep r; line_qual r] ++
  (flat_map record_text rs ++ more).
Proof. cbn [flat_map]. rewrite <- app_assoc. reflexivity. Qed.

(** One whole record at the front of the unread bytes. *)
Lemma buffer_record (w : World) (r : FastqLines) (more : list byte) :
  well_formed r ->
  stage (this w) = stage_value HEADER ->
  SeqReader.unread (buffer (reader w)) = record_text r ++ more ->
  exists w',
    @read_buffer SeqReader.methods w = (Ret true, w') /\
    record w' = record_of r /\
    this w' = {| stage := stage_value HEADER; tmp := [] |} /\
    SeqReader.unread (buffer (reader w')) = more /\
    source (reader w') = source (reader w).
Proof.
  intros (Hh & Hs & Hp & Hq) Hst Hu.
  destruct r as [h s p q]. unfold record_text, lines_of, record_of in *.
  cbn [line_header line_seq line_sep line_qual] in *.
  rewrite read_buffer_unfold, unread_some
    by (rewrite Hu, unlines_cons; destruct h; discriminate).
  rewrite (@buffer_switch_case _ HEADER)
    by (cbn; rewrite Hst; reflexivity).
  rewrite unlines_cons in Hu.
  destruct w as [[v t] [[d st e] f] rc]. cbn -[unlines SeqReader.unread] in Hu, Hst.
  simpl_world.
  buffer_reads_line. buffer_reads_line. buffer_reads_line. buffer_reads_line.
  eexists. split; [reflexivity|]. cbn. repeat split. exact U2.
Qed.

Lemma read_records_true (read : M bool) (n : nat) (w w' : World) :
  read w = (Ret true, w') ->
  read_records read (S n) w =
    (record w' :: fst (read_records read n w'), snd (read_records read n w')).
Proof.
  intros H. cbn [read_records]. rewrite H.
  destruct (read_records read n w'). reflexivity.
Qed.

Lemma read_records_false (read : M bool) (n : nat) (w w' : World) :
  read w = (Ret false, w') ->
  read_records read (S n) w = ([], w').
Proof. intros H. cbn [read_records]. rewrite H. reflexivity. Qed.

Lemma buffer_records_read (rs : list FastqLines) (more : list byte) (w : World) :
  Forall well_formed rs ->
  stage (this w) = stage_value HEADER ->
  SeqReader.unread (buffer (reader w)) = flat_map record_text rs ++ more ->
  exists w',
    read_records (@read_buffer SeqReader.methods) (List.length rs) w =
      (map record_of rs, w') /\
    stage (this w') = stage_value HEADER /\
    SeqReader.unread (buffer (reader w')) = more /\
    source (reader w') = source (reader w).
Proof.
  revert w. induction rs as [|r rs IH]; intros w Hwf Hst Hu.
  - exists w. repeat split; assumption.
  - inversion Hwf as [|? ? Hr Hrs]; subst.
    rewrite flat_map_record_text in Hu.
    destruct (@buffer_record w r _ Hr Hst Hu) as (w1 & E1 & Hrec & Hthis & Hun & Hsrc).
    assert (Hst1 : stage (this w1) = stage_value HEADER) by (rewrite Hthis; reflexivity).
    destruct (IH w1 Hrs Hst1 Hun) as (w' & E & Hst' & Hun' & Hsrc').
    exists w'. cbn [List.length map].
    rewrite (@read_records_true _ _ _ _ E1), E, Hrec. cbn [fst snd].
    repeat split; try assumption. congruence.
Qed.

Lemma file_records_read (rs : list FastqLines) (rest : list byte) (w : World) :
  Forall well_formed rs ->
  pending (source (reader w)) = flat_map record_text rs ++ rest ->
  exists w',
    read_records (@read_file SeqReader.methods) (List.length rs) w =
      (map record_of rs, w') /\
    stage (this w') = stage (this w) /\
    pending (source (reader w')) = rest /\
    buffer (reader w') = buffer (reader w).
Proof.
  revert w. induction rs as [|r rs IH]; intros w Hwf Hp.
  - exists w. repeat split; assumption.
  - inversion Hwf as [|? ? Hr Hrs]; subst.
    rewrite flat_map_record_text in Hp.
    destruct Hr as (Hh & Hs & Hsp & Hq).
    pose proof (@read_file_record w _ _ _ _ _ Hh Hs Hsp Hq Hp) as E1.
    match type of E1 with _ = (_, ?w1) =>
      destruct (IH w1 Hrs eq_refl) as (w' & E & Hst' & Hp' & Hb')
    end.
    exists w'. cbn [List.length map].
    rewrite (@read_records_true _ _ _ _ E1), E. cbn [fst snd record].
    repeat split; assumption.
Qed.

(** X3: [read_buffer] called in a row reads the records of the buffer
    in their order, none twice and none left out: with the texts of
    well-formed records at the front of the unread bytes, as many
    calls as there are records return true and deliver them, and leave
    the bytes after them unread.  When those bytes hold no terminator
    the next call returns false, so further calls add nothing. *)
Theorem read_buffer_records_in_order (rs : list FastqLines) (more : list byte)
  (w : World) :
  Forall well_formed rs ->
  stage (this w) = stage_value HEADER ->
  SeqReader.unread (buffer (reader w)) = flat_map record_text rs ++ more ->
  (exists w',
     read_records (@read_buffer SeqReader.methods) (List.length rs) w =
       (map record_of rs, w') /\
     stage (this w') = stage_value HEADER /\
     SeqReader.unread (buffer (reader w')) = more) /\
  (line_content more ->
   forall n, List.length rs <= n ->
     fst (read_records (@read_buffer SeqReader.methods) n w) = map record_of rs).
Proof.
  intros Hwf Hst Hu. split.
  - destruct (@buffer_records_read rs more w Hwf Hst Hu) as (w' & E & H1 & H2 & _).
    exists w'. repeat split; assumption.
  - intros Hmore. revert w Hst Hu.
    induction Hwf as [|r rs Hr Hrs IH]; intros w Hst Hu n Hn.
    + destruct n as [|n]; [reflexivity|].
      cbn [flat_map app] in Hu.
      assert (Es : stage_of_value (stage (this w)) = Some HEADER)
        by (rewrite Hst; reflexivity).
      assert (Hnone : SeqReader.split_line (SeqReader.unread (buffer (reader w))) = None)
        by (rewrite Hu; apply split_line_absent; exact Hmore).
      rewrite (@read_records_false _ _ _ _ (stalled_read_buffer w Es Hnone)).
      reflexivity.
    + destruct n as [|n]; [cbn in Hn; lia|].
      rewrite flat_map_record_text in Hu.
      destruct (@buffer_record w r _ Hr Hst Hu) as (w1 & E1 & Hrec & Hthis & Hun & _).
      rewrite (@read_records_true _ _ _ _ E1). cbn [fst map].
      rewrite Hrec. f_equal. apply IH.
      * rewrite Hthis. reflexivity.
      * exact Hun.
      * cbn in Hn. lia.
Qed.

(** X4: [read_file] called in a row reads the records of the stream
    in their order: as many calls as there are records return true and
    deliver them, whatever the stage, which they leave as it is; when
    the stream ends with the last record the next call returns false,
    so further calls add nothing. *)
Theorem read_file_records_in_order (rs : list FastqLines) (rest : list byte)
  (w : World) :
  Forall well_formed rs ->
  pending (source (reader w)) = flat_map record_text rs ++ rest ->
  (exists w',
     read_records (@read_file SeqReader.methods) (List.length rs) w =
       (map record_of rs, w') /\
     stage (this w') = stage (this w) /\
     pending (source (reader w')) = rest) /\
  (rest = [] ->
   forall n, List.length rs <= n ->
     fst (read_records (@read_file SeqReader.methods) n w) = map record_of rs).
Proof.
  intros Hwf Hp. split.
  - destruct (@file_records_read rs rest w Hwf Hp) as (w' & E & H1 & H2 & _).
    exists w'. repeat split; assumption.
  - intros ->. revert w Hp.
    induction Hwf as [|r rs Hr Hrs IH]; intros w Hp n Hn.
    + destruct n as [|n]; [reflexivity|].
      cbn [flat_map app] in Hp.
      assert (E : @read_file SeqReader.methods w = (Ret false, w)).
      { rewrite read_file_reads. cbn [file_at_end SeqReader.methods].
        unfold SeqReader.file_at_end. rewrite Hp. reflexivity. }
      rewrite (@read_records_false _ _ _ _ E). reflexivity.
    + destruct n as [|n]; [cbn in Hn; lia|].
      rewrite flat_map_record_text in Hp.
      destruct Hr as (Hh & Hs & Hsp & Hq).
      pose proof (@read_file_record w _ _ _ _ _ Hh Hs Hsp Hq Hp) as E1.
      rewrite (@read_records_true _ _ _ _ E1). cbn [fst map record].
      f_equal. apply IH; [reflexivity|cbn in Hn; lia].
Qed.

(** The two records of the examples in a row, in the buffer and in the
    stream. *)
Lemma read_buffer_records_in_order_witness :
  (Forall well_formed [record_r1; record_r2] /\
   stage (this example_two_buffered) = stage_value HEADER /\
   SeqReader.unread (buffer (reader example_two_buffered)) =
     flat_map record_text [record_r1; record_r2] ++ []) /\
  (exists w',
     read_records (@read_buffer SeqReader.methods) 2 example_two_buffered =
       ([record_of record_r1; record_of record_r2], w') /\
     stage (this w') = stage_value HEADER /\
     SeqReader.unread (buffer (reader w')) = []) /\
  (line_content [] ->
   forall n, 2 <= n ->
     fst (read_records (@read_buffer SeqReader.methods) n example_two_buffered) =
       [record_of record_r1; record_of record_r2]).
Proof.
  assert (Hwf : Forall well_formed [record_r1; record_r2])
    by (repeat constructor).
  split; [repeat split; exact Hwf|].
  exact (@read_buffer_records_in_order [record_r1; record_r2] []
           example_two_buffered Hwf eq_refl eq_refl).
Defined.

Lemma read_file_records_in_order_witness :
  (Forall well_formed [record_r1; record_r2] /\
   pending (source (reader example_two_streamed)) =
     flat_map record_text [record_r1; record_r2] ++ []) /\
  (exists w',
     read_records (@read_file SeqReader.methods) 2 example_two_streamed =
       ([record_of record_r1; record_of record_r2], w') /\
     stage (this w') = stage (this example_two_streamed) /\
     pending (source (reader w')) = []) /\
  (@nil byte = [] ->
   forall n, 2 <= n ->
     fst (read_records (@read_file SeqReader.methods) n example_two_streamed) =
       [record_of record_r1; record_of record_r2]).
Proof.
  assert (Hwf : Forall well_formed [record_r1; record_r2])
    by (repeat constructor).
  split; [repeat split; exact Hwf|].
  exact (@read_file_records_in_order [record_r1; record_r2] []
           example_two_streamed Hwf eq_refl).
Defined.

(** ** Records across the boundary *)

(** The rest of a record read by [read_transition]. *)
Ltac transition_completes :=
  simpl_world;
  rewrite read_transition_ready
    by (simpl_world; apply (proj2 (unlines_ready _ _ _ false false)));
  match goal with
  | |- context [transition_switch ?w] =>
      match w with
      | context [{| stage := ?v; tmp := _ |}] =>
          let s := eval cbv in (stage_of_value v) in
          match s with
          | Some ?st => rewrite (@transition_switch_case _ st w eq_refl)
          end
      end
  end;
  repeat stream_reads_line.

(** X5: [read_transition] appends and clears nothing.  Entered at any
    stage with the lines from that stage on at the front of a ready
    stream, it returns true with each of these lines appended to what
    its field held at entry; the fields of earlier stages stay as they
    were, the stage is HEADER and the stream stands after the record.
    The scratch line is emptied unless the call is entered at QUAL. *)
Theorem read_transition_appends (st : Stage) (w : World) (r : FastqLines)
  (rest : list byte) :
  well_formed r ->
  stage (this w) = stage_value st ->
  source (reader w) =
    {| pending := unlines (skipn (stage_index st) (lines_of r)) ++ rest;
       eof_indicator := false; error_indicator := false |} ->
  exists w',
    @read_transition SeqReader.methods w = (Ret true, w') /\
    record w' =
      {| header := header (record w) ++
                   (if stage_index st <=? 0 then line_header r else []);
         seq := seq (record w) ++
                (if stage_index st <=? 1 then line_seq r else []);
         qual := qual (record w) ++ line_qual r |} /\
    this w' =
      {| stage := stage_value HEADER;
         tmp := if stage_index st <=? 2 then [] else tmp (this w) |} /\
    pending (source (reader w')) = rest /\
    buffer (reader w') = buffer (reader w).
Proof.
  intros (Hh & Hs & Hp & Hq) Hst Hsrc.
  destruct r as [h s p q]. unfold lines_of in Hsrc.
  cbn [line_header line_seq line_sep line_qual] in *.
  destruct w as [[v t] [b f] [h0 s0 q0]].
  cbn -[unlines] in Hst, Hsrc. subst v f.
  destruct st; cbn [stage_index skipn stage_value];
    transition_completes;
    (eexists; split; [reflexivity|]);
    cbn; rewrite ?app_nil_r; repeat split.
Qed.

(** A record object that was not cleared: the second record read by
    [read_transition] is appended to the first. *)
Lemma read_transition_appends_witness :
  (well_formed record_r2 /\
   stage (this example_not_cleared) = stage_value HEADER /\
   source (reader example_not_cleared) =
     stream_of (unlines (skipn (stage_index HEADER) (lines_of record_r2)) ++ [])) /\
  exists w',
    @read_transition SeqReader.methods example_not_cleared = (Ret true, w') /\
    record w' =
      {| header := cstr "@r1" ++ cstr "@r2";
         seq := cstr "ACGT" ++ cstr "TTTT";
         qual := cstr "!!!!" ++ cstr "####" |} /\
    this w' = {| stage := stage_value HEADER; tmp := [] |} /\
    pending (source (reader w')) = [] /\
    buffer (reader w') = buffer (reader example_not_cleared).
Proof.
  assert (Hwf : well_formed record_r2) by (repeat split).
  split; [repeat split|].
  exact (@read_transition_appends HEADER example_not_cleared record_r2 []
           Hwf eq_refl eq_refl).
Defined.

(** A record split after its line [k], [k] from 0 to 3, between the
    buffer and the stream. *)
Lemma split_record_reads (k : nat) (w : World) (r : FastqLines) (tail : list byte) :
  k <= 3 ->
  well_formed r ->
  stage (this w) = stage_value HEADER ->
  SeqReader.unread (buffer (reader w)) = unlines (firstn k (lines_of r)) ->
  source (reader w) =
    {| pending := unlines (skipn k (lines_of r)) ++ tail;
       eof_indicator := false; error_indicator := false |} ->
  exists w1 w2,
    @read_buffer SeqReader.methods w = (Ret false, w1) /\
    stage (this w1) = stage_value (Nat.iter k next_stage HEADER) /\
    @read_transition SeqReader.methods w1 = (Ret true, w2) /\
    record w2 = record_of r /\
    this w2 = {| stage := stage_value HEADER; tmp := [] |} /\
    pending (source (reader w2)) = tail /\
    buffer (reader w2) = buffer (reader w1).
Proof.
  intros Hk (Hh & Hs & Hp & Hq) Hst Hu Hsrc.
  destruct r as [h s p q]. unfold lines_of, record_of in *.
  cbn [line_header line_seq line_sep line_qual] in *.
  destruct k as [|k].
  - (* nothing of the record in the buffer *)
    assert (Es : stage_of_value (stage (this w)) = Some HEADER)
      by (rewrite Hst; reflexivity).
    assert (Hnone : SeqReader.split_line (SeqReader.unread (buffer (reader w))) = None)
      by (rewrite Hu; reflexivity).
    rewrite (stalled_read_buffer w Es Hnone).
    destruct w as [[v t] [[d st e] f] rc].
    cbn -[unlines SeqReader.unread] in Hst, Hsrc. subst v f.
    eexists _, _. split; [reflexivity|]. split; [reflexivity|].
    cbn [skipn]. transition_completes.
    split; [reflexivity|]. repeat split.
  - rewrite read_buffer_unfold, unread_some
      by (rewrite Hu; cbn [firstn];
          rewrite <- (app_nil_r (unlines _)), unlines_cons;
          destruct h; discriminate).
    rewrite (@buffer_switch_case _ HEADER)
      by (cbn; rewrite Hst; reflexivity).
    rewrite <- (app_nil_r (unlines _)) in Hu.
    destruct w as [[v t] [[d st e] f] rc].
    cbn -[unlines SeqReader.unread] in Hu, Hst, Hsrc. subst v f.
    simpl_world.
    destruct k as [|[|[|k]]]; try lia;
      cbn [firstn] in Hu; rewrite unlines_cons in Hu;
      repeat buffer_reads_line; buffer_stalls;
      (eexists _, _; split; [reflexivity|]; split; [reflexivity|]);
      cbn [skipn]; transition_completes;
      (split; [reflexivity|]); repeat split.
Qed.

Lemma read_records_stop (read : M bool) (a m : nat) (w w' w'' : World)
  (rs : list RecordType) :
  read_records read a w = (rs, w') ->
  List.length rs = a ->
  read w' = (Ret false, w'') ->
  read_records read (a + S m) w = (rs, w'').
Proof.
  revert w rs. induction a as [|a IH]; intros w rs E Hlen Hf.
  - cbn in E. injection E as <- <-. cbn [Nat.add read_records].
    rewrite Hf. reflexivity.
  - cbn [Nat.add read_records] in *.
    destruct (read w) as [[[|]|c] w1].
    + destruct (read_records read a w1) as [rs1 w2] eqn:E1.
      injection E as <- <-. cbn in Hlen.
      rewrite (IH w1 rs1 E1 (eq_add_S _ _ Hlen) Hf). reflexivity.
    + injection E as <- <-. discriminate Hlen.
    + injection E as <- <-. discriminate Hlen.
Qed.

(** X6: nothing of the record in the buffer.  From stage HEADER with
    no unread byte in the window, [read_buffer] returns false with the
    record cleared, and [read_transition] then reads the whole record
    from the stream: the record it leaves is the one [read_file] leaves
    on the same stream. *)
Theorem empty_buffer_then_transition (w wd : World) (r : FastqLines)
  (rest : list byte) :
  well_formed r ->
  stage (this w) = stage_value HEADER ->
  SeqReader.unread (buffer (reader w)) = [] ->
  source (reader w) =
    {| pending := record_text r ++ rest;
       eof_indicator := false; error_indicator := false |} ->
  pending (source (reader wd)) = record_text r ++ rest ->
  exists w2 wd',
    @read_buffer SeqReader.methods w = (Ret false, set_record empty_record w) /\
    @read_transition SeqReader.methods (set_record empty_record w) = (Ret true, w2) /\
    @read_file SeqReader.methods wd = (Ret true, wd') /\
    record w2 = record wd' /\
    record w2 = record_of r /\
    pending (source (reader w2)) = rest /\
    pending (source (reader wd')) = rest.
Proof.
  intros Hwf Hst Hu Hsrc Hd.
  destruct (@split_record_reads 0 w r rest (Nat.le_0_l 3) Hwf Hst Hu Hsrc)
    as (w1 & w2 & E1 & _ & E2 & Hrec & _ & Hp & _).
  assert (Es : stage_of_value (stage (this w)) = Some HEADER)
    by (rewrite Hst; reflexivity).
  assert (Hnone : SeqReader.split_line (SeqReader.unread (buffer (reader w))) = None)
    by (rewrite Hu; reflexivity).
  rewrite (stalled_read_buffer w Es Hnone) in E1. injection E1 as <-.
  destruct Hwf as (Hh & Hs & Hsp & Hq).
  pose proof (@read_file_record wd _ _ _ _ _ Hh Hs Hsp Hq Hd) as Ef.
  eexists w2, _. split; [exact (stalled_read_buffer w Es Hnone)|]. split; [exact E2|].
  split; [exact Ef|]. cbn [record source reader pending].
  rewrite Hrec. repeat split. exact Hp.
Qed.

Lemma empty_buffer_then_transition_witness :
  (well_formed record_r1 /\
   stage (this example_unbuffered) = stage_value HEADER /\
   SeqReader.unread (buffer (reader example_unbuffered)) = [] /\
   source (reader example_unbuffered) = stream_of (record_text record_r1 ++ []) /\
   pending (source (reader example_unsplit)) = record_text record_r1 ++ []) /\
  exists w2 wd',
    @read_buffer SeqReader.methods example_unbuffered =
      (Ret false, set_record empty_record example_unbuffered) /\
    @read_transition SeqReader.methods
      (set_record empty_record example_unbuffered) = (Ret true, w2) /\
    @read_file SeqReader.methods example_unsplit = (Ret true, wd') /\
    record w2 = record wd' /\
    record w2 = record_of record_r1 /\
    pending (source (reader w2)) = [] /\
    pending (source (reader wd')) = [].
Proof.
  assert (Hwf : well_formed record_r1) by (repeat split).
  split; [repeat split|].
  exact (@empty_buffer_then_transition example_unbuffered example_unsplit
           record_r1 [] Hwf eq_refl eq_refl eq_refl eq_refl).
Defined.

(** X7: whole records and then a record across the boundary.  With
    the texts of well-formed records in the buffer, followed by the
    first [k] lines of one more (0 to 3), whose other lines are at the
    front of the stream: [read_buffer] called in a row delivers the
    whole records in their order and then returns false at the stage of
    line [k+1], and one call of [read_transition] returns true with the
    split record complete.  No line is read twice and none is lost. *)
Theorem records_then_split_record (rs : list FastqLines) (r : FastqLines)
  (k n : nat) (tail : list byte) (w : World) :
  Forall well_formed rs ->
  well_formed r ->
  k <= 3 ->
  List.length rs < n ->
  stage (this w) = stage_value HEADER ->
  SeqReader.unread (buffer (reader w)) =
    flat_map record_text rs ++ unlines (firstn k (lines_of r)) ->
  source (reader w) =
    {| pending := unlines (skipn k (lines_of r)) ++ tail;
       eof_indicator := false; error_indicator := false |} ->
  exists w1 w2,
    read_records (@read_buffer SeqReader.methods) n w = (map record_of rs, w1) /\
    stage (this w1) = stage_value (Nat.iter k next_stage HEADER) /\
    @read_transition SeqReader.methods w1 = (Ret true, w2) /\
    record w2 = record_of r /\
    this w2 = {| stage := stage_value HEADER; tmp := [] |} /\
    pending (source (reader w2)) = tail.
Proof.
  intros Hwf Hr Hk Hn Hst Hu Hsrc.
  destruct (@buffer_records_read rs _ w Hwf Hst Hu)
    as (w0 & E0 & Hst0 & Hu0 & Hsrc0).
  rewrite Hsrc in Hsrc0.
  destruct (@split_record_reads k w0 r tail Hk Hr Hst0 Hu0 Hsrc0)
    as (w1 & w2 & E1 & Hst1 & E2 & Hrec & Hthis & Hp & _).
  exists w1, w2.
  replace n with (List.length rs + S (n - S (List.length rs))) by lia.
  rewrite (@read_records_stop _ _ _ w w0 w1 (map record_of rs) E0
             (length_map _ _) E1).
  repeat split; assumption.
Qed.

Lemma records_then_split_record_witness :
  (Forall well_formed [record_r1] /\ well_formed record_r2 /\
   2 <= 3 /\ List.length [record_r1] < 5 /\
   stage (this example_boundary) = stage_value HEADER /\
   SeqReader.unread (buffer (reader example_boundary)) =
     flat_map record_text [record_r1] ++ unlines (firstn 2 (lines_of record_r2)) /\
   source (reader example_boundary) =
     stream_of (unlines (skipn 2 (lines_of record_r2)) ++ [])) /\
  exists w1 w2,
    read_records (@read_buffer SeqReader.methods) 5 example_boundary =
      ([record_of record_r1], w1) /\
    stage (this w1) = stage_value SEP /\
    @read_transition SeqReader.methods w1 = (Ret true, w2) /\
    record w2 = record_of record_r2 /\
    this w2 = {| stage := stage_value HEADER; tmp := [] |} /\
    pending (source (reader w2)) = [].
Proof.
  assert (Hwf : Forall well_formed [record_r1]) by (repeat constructor).
  assert (Hr : well_formed record_r2) by (repeat split).
  split; [repeat split; try exact Hwf; cbn; lia|].
  apply (@records_then_split_record [record_r1] record_r2 2 5 []
           example_boundary Hwf Hr); try reflexivity; cbn; lia.
Defined.

(** ** The buffer cursor *)

Lemma split_line_length (l : list byte) (line : CString) (after : list byte) :
  SeqReader.split_line l = Some (line, after) ->
  List.length l = List.length line + 1 + List.length after.
Proof.
  revert line. induction l as [|c l IH]; cbn; intros line H.
  - discriminate H.
  - destruct (is_newline c).
    + injection H as <- <-. reflexivity.
    + destruct (SeqReader.split_line l) as [[line' after']|]; [|discriminate H].
      injection H as <- <-. cbn. rewrite (IH line' eq_refl). lia.
Qed.

Lemma cursor_moved_refl (b : Buffer) : cursor_moved b b.
Proof. unfold cursor_moved. repeat split; lia. Qed.

Lemma cursor_moved_trans (a b c : Buffer) :
  cursor_moved a b -> cursor_moved b c -> cursor_moved a c.
Proof.
  unfold cursor_moved. intros (D1 & E1 & S1 & W1) (D2 & E2 & S2 & W2).
  rewrite D2, E2, D1, E1 in *. repeat split; lia.
Qed.

Lemma readline_buffer_append_cursor (dest d' : CString) (b b' : Buffer) (ok : bool) :
  SeqReader.readline_buffer_append dest b = (ok, d', b') ->
  cursor_moved b b'.
Proof.
  unfold SeqReader.readline_buffer_append.
  destruct (SeqReader.split_line (SeqReader.unread b)) as [[line after]|] eqn:E.
  - intros [= _ _ <-]. apply split_line_length in E.
    assert (Hlen : List.length (SeqReader.unread b) <= end_ b - start b)
      by (unfold SeqReader.unread; apply firstn_le_length).
    unfold cursor_moved. cbn [data start end_]. repeat split; lia.
  - intros [= _ _ <-]. apply cursor_moved_refl.
Qed.

Lemma call_buffer_cursor (p : Place) (w w' : World) (ok : bool) :
  @call_readline_buffer_append SeqReader.methods p w = (Ret ok, w') ->
  cursor_moved (buffer (reader w)) (buffer (reader w')).
Proof.
  unfold call_readline_buffer_append.
  cbn [readline_buffer_append SeqReader.methods].
  destruct (SeqReader.readline_buffer_append (load p w) (buffer (reader w)))
    as [[ok' d'] b'] eqn:E.
  intros [= _ <-]. apply readline_buffer_append_cursor in E.
  destruct p; exact E.
Qed.

Lemma lines_read_cursor (n : nat) (s : Stage) (w w' : World) :
  lines_read (@buffer_line SeqReader.methods) n s w w' ->
  cursor_moved (buffer (reader w)) (buffer (reader w')).
Proof.
  intros H. induction H as [s w|n s w w1 w2 (w0 & Hc & ->) _ IH].
  - apply cursor_moved_refl.
  - refine (cursor_moved_trans _ IH).
    apply call_buffer_cursor in Hc. destruct s; exact Hc.
Qed.

(** X8: [read_buffer] never reads past the buffer's end and never
    moves back.  Whatever the stage and the outcome of the call, the
    loaded bytes and the end of the window are as before, the cursor
    has not moved backwards, and a cursor inside the window stays
    inside it. *)
Theorem read_buffer_cursor_in_window (w : World) :
  cursor_moved (buffer (reader w))
    (buffer (reader (snd (@read_buffer SeqReader.methods w)))).
Proof.
  rewrite read_buffer_unfold.
  destruct (start (buffer (reader w)) <? end_ (buffer (reader w)));
    [|apply cursor_moved_refl].
  destruct (stage_of_value (stage (this w))) as [s|] eqn:Es.
  - rewrite (@buffer_switch_case _ s (set_record empty_record w) Es).
    assert (Hk : stage_index s + (4 - stage_index s) = 4) by (destruct s; reflexivity).
    destruct (@buffer_case_run SeqReader.methods _ _ (set_record empty_record w) Hk)
      as (n & w1 & Hl & [[Ht _] | (_ & w2 & Hf & Hcall)]).
    + rewrite Ht. exact (lines_read_cursor Hl).
    + rewrite Hf. cbn [snd].
      refine (cursor_moved_trans (lines_read_cursor Hl) _).
      exact (call_buffer_cursor _ _ Hcall).
  - unfold buffer_switch, get_stage, bind. cbn [this set_record].
    rewrite Es. apply cursor_moved_refl.
Qed.

